(** * Verification of the Catalyst key/value quickstart set-up script

    Source: [keyvalue/javascript/run.py].

    The script is a sequence of external command invocations, a bounded
    polling loop on the status of an App ID, and a few accesses to the
    process environment and the file system.  The development embeds it
    as follows.

    - Text is a [string]: one [ascii] per character, read as the code
      point of that character, which covers the code points below 256.
      [isspace] and [lower] follow Python's [str.isspace] and
      [str.lower] on that range.  The two pictographs of the spinner
      marks lie outside it; they only occur in constant texts handed to
      the spinner, which the program never inspects, and are written by
      their UTF-8 bytes.
    - A value that is either a [str] or [None] is an [option string];
      [py_str] is its rendering inside an f-string.
    - [os.environ] is a [gmap string string].
    - The outside world (the results of the external commands, the
      outcome of argument parsing, the file system) is a record [World]
      the program reads from; what the program does to the outside is
      recorded, in order, in the [trace] of the state.
    - Effects are threaded by a state and exception monad [M].  Python
      exceptions, [SystemExit] included, are values of [exn]. *)

From Stdlib Require Import ZArith Ascii String List.
From stdpp Require Import gmap strings list fin_maps.
Import ListNotations.

Local Open Scope Z_scope.
Local Open Scope nat_scope.

(** ** Python strings *)

Module PyStr.

(** The line feed, ['\n']. *)
Definition nl : string := String (ascii_of_nat 10) EmptyString.

(** [str.isspace] of one character, for code points below 256:
    U+0009..U+000D, U+001C..U+0020, U+0085 and U+00A0. *)
Definition isspace (c : ascii) : bool :=
  let n := nat_of_ascii c in
  ((9 <=? n) && (n <=? 13)) || ((28 <=? n) && (n <=? 32))
  || (n =? 133) || (n =? 160).

Fixpoint lstrip (s : string) : string :=
  match s with
  | EmptyString => EmptyString
  | String c s' => if isspace c then lstrip s' else s
  end.

Fixpoint rstrip (s : string) : string :=
  match s with
  | EmptyString => EmptyString
  | String c s' =>
      match rstrip s' with
      | EmptyString => if isspace c then EmptyString else String c EmptyString
      | r => String c r
      end
  end.

(** [s.strip()]. *)
Definition strip (s : string) : string := rstrip (lstrip s).

(** [str.lower] of one character, for code points below 256: the
    letters A..Z and U+00C0..U+00DE except the multiplication sign
    U+00D7 move up by 32. *)
Definition lower_char (c : ascii) : ascii :=
  let n := nat_of_ascii c in
  if ((65 <=? n) && (n <=? 90))
     || ((192 <=? n) && (n <=? 222) && negb (n =? 215))
  then ascii_of_nat (n + 32) else c.

(** [s.lower()]. *)
Fixpoint lower (s : string) : string :=
  match s with
  | EmptyString => EmptyString
  | String c s' => String (lower_char c) (lower s')
  end.

(** [s] begins with [p]. *)
Fixpoint starts_with (s p : string) {struct p} : bool :=
  match p with
  | EmptyString => true
  | String a p' =>
      match s with
      | EmptyString => false
      | String b s' => Ascii.eqb a b && starts_with s' p'
      end
  end.

(** [sub in s]. *)
Fixpoint contains (s sub : string) : bool :=
  starts_with s sub
  || match s with
     | EmptyString => false
     | String _ s' => contains s' sub
     end.

(** [s.split(sep)] for a non-empty [sep], scanning left to right:
    [skip] counts the characters of a separator just matched that are
    still to be passed over.  The head of the result is the segment
    being read. *)
Fixpoint split_skip (sep : string) (skip : nat) (s : string) : list string :=
  match s with
  | EmptyString => [EmptyString]
  | String c s' =>
      match skip with
      | S k => split_skip sep k s'
      | O =>
          if starts_with s sep
          then EmptyString :: split_skip sep (String.length sep - 1) s'
          else match split_skip sep 0 s' with
               | seg :: rest => String c seg :: rest
               | [] => [String c EmptyString]
               end
      end
  end.

Definition split (s sep : string) : list string := split_skip sep 0 s.

(** The rendering of a [str]-or-[None] value inside an f-string. *)
Definition py_str (v : option string) : string :=
  match v with
  | Some s => s
  | None => "None"
  end.

(** Truth value of a [str]-or-[None] value. *)
Definition truthy (v : option string) : bool :=
  match v with
  | Some s => negb (String.eqb s "")
  | None => false
  end.

End PyStr.

Import PyStr.

(** ** The outside world, exceptions and events *)

(** What [subprocess.run(..., capture_output=True, text=True)] returns. *)
Record CompletedProcess := {
  returncode : Z;
  stdout : string;
  stderr : string
}.

(** The outcome of [parser.parse_args()] on the command line of the
    process: the values given to [--project-name] and [--config-file]
    ([None] for a flag that is absent), or the exit argparse performs
    itself on [--help] and on a usage error. *)
Inductive parse_result :=
| Parsed (project_name config_file : option string)
| ParserExit (code : Z).

(** [subprocess_run n env command] is the result of the [n]-th external
    command of the run (counting from 0), started with environment [env];
    [os_remove p] is [None] when the removal succeeds and the text of the
    exception it raises otherwise. *)
Record World := {
  subprocess_run : nat -> gmap string string -> string -> CompletedProcess;
  parse_args : parse_result;
  os_path_isfile : string -> bool;
  os_path_exists : string -> bool;
  os_remove : string -> option string
}.

Inductive exn :=
| SystemExit (code : Z)
| CalledProcessError (code : Z) (cmd output err : string)
| AttributeError (text : string)
| IndexError (text : string).

Inductive event :=
| EvSpinner (text : string)                          (* with yaspin(text=...) *)
| EvSpinnerOk (text : string)                        (* spinner.ok(...) *)
| EvSpinnerFail (text : string)                      (* spinner.fail(...) *)
| EvRun (command : string) (env : gmap string string) (* subprocess.run *)
| EvSleep (seconds : nat)                            (* time.sleep *)
| EvPrint (text : string)                            (* print(...) *)
| EvPrintErr (text : string)                         (* print(..., file=sys.stderr) *)
| EvPrintError (e : exn)                             (* print(f"Error: {e}") *)
| EvRemove (path : string).                          (* os.remove *)

Record State := {
  environ : gmap string string;
  calls : nat;
  trace : list event
}.

(** ** The monad of the script *)

Inductive result (A : Type) :=
| Val (a : A)
| Exc (e : exn)
| OutOfFuel.
Arguments Val {A} a.
Arguments Exc {A} e.
Arguments OutOfFuel {A}.

Definition M (A : Type) : Type := State -> result A * State.

Definition ret {A} (a : A) : M A := fun st => (Val a, st).

Definition bind {A B} (m : M A) (k : A -> M B) : M B :=
  fun st =>
    match m st with
    | (Val a, st') => k a st'
    | (Exc e, st') => (Exc e, st')
    | (OutOfFuel, st') => (OutOfFuel, st')
    end.

Notation "x <-- m ;;; k" := (bind m (fun x => k))
  (at level 90, m at level 80, right associativity).
Notation "m ;;; k" := (bind m (fun _ => k))
  (at level 90, right associativity).

Definition raise {A} (e : exn) : M A := fun st => (Exc e, st).

Definition out_of_fuel {A} : M A := fun st => (OutOfFuel, st).

Definition emit (e : event) : M unit :=
  fun st =>
    (Val tt, {| environ := environ st; calls := calls st;
                trace := trace st ++ [e] |}).

(** [try: body except ...: handler]; [handler e] is [None] for an
    exception the clause does not catch. *)
Definition try_except {A} (body : M A) (handler : exn -> option (M A)) : M A :=
  fun st =>
    match body st with
    | (Exc e, st') =>
        match handler e with
        | Some h => h st'
        | None => (Exc e, st')
        end
    | r => r
    end.

(** [os.getenv(name)]. *)
Definition getenv (name : string) : M (option string) :=
  fun st => (Val (environ st !! name), st).

(** [os.environ[name] = value]. *)
Definition setenv (name value : string) : M unit :=
  fun st =>
    (Val tt, {| environ := <[name := value]> (environ st);
                calls := calls st; trace := trace st |}).

(** [sys.exit(code)]. *)
Definition sys_exit {A} (code : Z) : M A := raise (SystemExit code).

(** The exit status of the process when the program ends with [r]: 0
    when it runs to its end, the code of a [SystemExit], and 1 for any
    other exception, which the interpreter reports with a traceback. *)
Definition exit_status {A} (r : result A) : option Z :=
  match r with
  | Val _ => Some 0%Z
  | Exc (SystemExit code) => Some code
  | Exc _ => Some 1%Z
  | OutOfFuel => None
  end.

(** The spinner marks, by their UTF-8 bytes: U+2705 and U+274C. *)
Definition check_mark : string :=
  String (ascii_of_nat 226) (String (ascii_of_nat 156) (String (ascii_of_nat 133) "")).
Definition cross_mark : string :=
  String (ascii_of_nat 226) (String (ascii_of_nat 157) (String (ascii_of_nat 140) "")).

(** ** The script *)

Definition NODEJS_INSTRUCTIONS : string :=
  nl +:+ "Node.js and npm must be installed to run this script. Full instructions can"
  +:+ nl +:+ "be found on the Node.js web site:"
  +:+ nl +:+ nl +:+ "  https://nodejs.org/en/download" +:+ nl.

Definition max_attempts : nat := 8.

(** What the polling loop of [check_appid_status] ends with: the
    [return] inside the loop, or the end of the [while] with the
    [last_status] it has then. *)
Inductive loop_exit :=
| Returned
| Exhausted (last_status : option string).

(** The test of line 89. *)
Definition is_ready (status : option string) : bool :=
  match status with
  | Some s =>
      truthy status
      && (String.eqb (lower s) "ready" || String.eqb (lower s) "available")
  | None => false
  end.

(** The [for] loop of lines 83 to 87 over the remaining lines, started
    with the current values of [status] and [last_status]; it gives
    their values after the loop, or the exception of the indexing. *)
Fixpoint for_status_lines (status_lines : list string)
    (status last_status : option string)
  : exn + (option string * option string) :=
  match status_lines with
  | [] => inr (status, last_status)
  | line :: rest =>
      if contains line "Status:" then
        match split line "Status:" !! 1 with
        | Some field => inr (Some (strip field), Some (strip field))
        | None => inl (IndexError "list index out of range")
        end
      else for_status_lines rest status last_status
  end.

Definition status_query (project_name : option string) (appid_name : string)
  : string :=
  "diagrid appid get " +:+ appid_name +:+ " -p " +:+ py_str project_name.

Definition waiting_text (appid_name : string) : string :=
  "Waiting for App ID " +:+ appid_name
  +:+ " to become ready. This may take 1-2 minutes...".

Definition not_ready_text (appid_name : string) (last_status : option string)
  : string :=
  cross_mark +:+ " " +:+ appid_name
  +:+ " is not ready. Once current status " +:+ py_str last_status
  +:+ " becomes ready, you can proceed.".

(** What [status_output.split] raises when [status_output] is [None]. *)
Definition no_split : exn :=
  AttributeError "'NoneType' object has no attribute 'split'".

Section Script.

Variable w : World.

Definition error {A} (message : string) : M A :=
  emit (EvSpinnerFail cross_mark) ;;;
  emit (EvPrintErr ("Error: " +:+ message)) ;;;
  sys_exit 1.

Definition run_command (command : string) (check : bool) : M (option string) :=
  fun st =>
    let result := subprocess_run w (calls st) (environ st) command in
    let st' := {| environ := environ st; calls := S (calls st);
                  trace := trace st ++ [EvRun command (environ st)] |} in
    if negb (returncode result =? 0)%Z then
      if check then
        (Exc (CalledProcessError (returncode result) command
                (stdout result) (stderr result)), st')
      else (Val None, st')
    else (Val (Some (strip (stdout result))), st').

Definition check_js_installed : M unit :=
  emit (EvSpinner "Checking Javascript dependencies...") ;;;
  node_check <-- run_command "node -v" false ;;;
  npm_check <-- run_command "npm -v" false ;;;
  match node_check, npm_check with
  | Some node, Some npm =>
      emit (EvPrint ("Node.js version: " +:+ strip node)) ;;;
      emit (EvPrint ("npm version: " +:+ strip npm)) ;;;
      emit (EvSpinnerOk check_mark)
  | _, _ => error NODEJS_INSTRUCTIONS
  end.

(** The body of the three [except subprocess.CalledProcessError]
    clauses, which differ in the text given to [spinner.fail]. *)
Definition except_CalledProcessError (fail_text : string) (e : exn)
  : option (M unit) :=
  match e with
  | CalledProcessError _ _ output err =>
      Some (emit (EvSpinnerFail fail_text) ;;;
            emit (EvPrintError e) ;;;
            (if negb (String.eqb output "") then emit (EvPrint output) else ret tt) ;;;
            (if negb (String.eqb err "") then emit (EvPrint err) else ret tt) ;;;
            sys_exit 1)
  | _ => None
  end.

Definition create_project (project_name : option string) : M unit :=
  emit (EvSpinner ("Creating project " +:+ py_str project_name +:+ "...")) ;;;
  try_except
    (run_command ("diagrid project create " +:+ py_str project_name
                  +:+ " --deploy-managed-kv") true ;;;
     emit (EvSpinnerOk check_mark))
    (except_CalledProcessError (cross_mark +:+ " Failed to create project")).

Definition create_appid (project_name : option string) (appid_name : string)
  : M unit :=
  emit (EvSpinner ("Creating App ID " +:+ appid_name +:+ "...")) ;;;
  try_except
    (run_command ("diagrid appid create -p " +:+ py_str project_name
                  +:+ " " +:+ appid_name) true ;;;
     emit (EvSpinnerOk check_mark))
    (except_CalledProcessError
       (cross_mark +:+ " Failed to create App ID " +:+ appid_name)).

(** The [while] loop of lines 78 to 94; [fuel] bounds the number of
    iterations. *)
Fixpoint poll_loop (fuel : nat) (project_name : option string)
    (appid_name : string) (attempt : nat) (last_status : option string)
  : M loop_exit :=
  if attempt <=? max_attempts then
    match fuel with
    | O => out_of_fuel
    | S fuel' =>
        status_output <-- run_command (status_query project_name appid_name) false ;;;
        match status_output with
        | None => raise (AttributeError "'NoneType' object has no attribute 'split'")
        | Some output =>
            let status_lines := split output nl in
            match for_status_lines status_lines None last_status with
            | inl e => raise e
            | inr (status, last_status) =>
                if is_ready status then
                  emit (EvSpinnerOk check_mark) ;;;
                  ret Returned
                else
                  emit (EvSleep 10) ;;;
                  poll_loop fuel' project_name appid_name (attempt + 1) last_status
            end
        end
    end
  else ret (Exhausted last_status).

Definition check_appid_status (project_name : option string)
    (appid_name : string) : M unit :=
  emit (EvSpinner (waiting_text appid_name)) ;;;
  r <-- poll_loop max_attempts project_name appid_name 1 None ;;;
  match r with
  | Returned => ret tt
  | Exhausted last_status =>
      emit (EvSpinnerFail (not_ready_text appid_name last_status)) ;;;
      sys_exit 1
  end.

Definition set_default_project (project_name : option string) : M unit :=
  emit (EvSpinner ("Setting default project as " +:+ py_str project_name +:+ "...")) ;;;
  try_except
    (run_command ("diagrid project use " +:+ py_str project_name) true ;;;
     emit (EvSpinnerOk check_mark))
    (except_CalledProcessError (cross_mark +:+ " Failed to set default project")).

Definition env_name : string := "diagrid-venv".

Definition scaffold_and_update_config (config_file : string) : M unit :=
  emit (EvSpinner "Preparing dev config file...") ;;;
  scaffold_output <-- run_command "diagrid dev scaffold" true ;;;
  (match scaffold_output with
   | None => error "Failed to prepare dev config file"
   | Some _ => ret tt
   end) ;;;
  (if os_path_exists w env_name
   then run_command ("rm -rf " +:+ env_name) true ;;; ret tt
   else ret tt) ;;;
  run_command ("python3 -m venv " +:+ env_name) true ;;;
  run_command ("./" +:+ env_name +:+ "/bin/pip install pyyaml") true ;;;
  run_command ("./" +:+ env_name +:+ "/bin/python scaffold.py") true ;;;
  emit (EvSpinnerOk check_mark).

(** [parser.parse_args()] with the two [default=] values. *)
Definition parser_parse_args (prj_name : option string)
    (config_file_name : string) : M (option string * string) :=
  match parse_args w with
  | Parsed project_name config_file =>
      ret (match project_name with Some p => Some p | None => prj_name end,
           match config_file with Some c => c | None => config_file_name end)
  | ParserExit code => sys_exit code
  end.

(** In the [try] of lines 165 to 168 only [os.remove] raises, and what
    it raises is caught by [except Exception]: the block is embedded by
    the two cases of [os_remove]. *)
Definition main : M unit :=
  prj_name <-- getenv "QUICKSTART_PROJECT_NAME" ;;;
  let config_file_name := "dev-" +:+ py_str prj_name +:+ ".yaml" in
  setenv "CONFIG_FILE" config_file_name ;;;
  args <-- parser_parse_args prj_name config_file_name ;;;
  let project_name := fst args in
  let appid_name := "order-app" in
  let config_file := snd args in
  create_project prj_name ;;;
  set_default_project prj_name ;;;
  create_appid prj_name appid_name ;;;
  check_appid_status project_name appid_name ;;;
  (if os_path_isfile w config_file then
     emit (EvPrint ("Existing dev config file found: " +:+ config_file)) ;;;
     emit (EvRemove config_file) ;;;
     match os_remove w config_file with
     | None => emit (EvPrint ("Deleted existing config file: " +:+ config_file))
     | Some e =>
         emit (EvSpinner ("Error deleting file " +:+ config_file)) ;;;
         error ("Error deleting file " +:+ config_file +:+ ": " +:+ e)
     end
   else ret tt) ;;;
  scaffold_and_update_config config_file.

End Script.

(** ** Vocabulary of the statements *)

(** Membership in the ready vocabulary, whatever the letter case. *)
Definition in_ready_vocabulary (s : string) : Prop :=
  lower s = "ready" \/ lower s = "available".

(** The first line of [output] that contains the marker, if there is one. *)
Definition status_line (output : string) : option string :=
  List.find (fun line => contains line "Status:") (split output nl).

(** The value line 85 reads from a status line. *)
Definition status_field (line : string) : string :=
  strip (default "" (split line "Status:" !! 1)).

(** The status one attempt parses from the text it queried. *)
Definition parsed_status (output : string) : option string :=
  status_field <$> status_line output.

(** [last_status] after an attempt that queried [output]: replaced when
    a status was parsed, kept otherwise. *)
Definition observe (last_status : option string) (output : string)
  : option string :=
  match parsed_status output with
  | Some s => Some s
  | None => last_status
  end.

(** The state [n] external commands and the events [tr] later. *)
Definition advance (st : State) (n : nat) (tr : list event) : State :=
  {| environ := environ st; calls := n + calls st; trace := trace st ++ tr |}.

Section Queries.

Variables (w : World) (env : gmap string string).
Variables (project_name : option string) (appid_name : string).

(** The result of the status query when it is external command number [n]. *)
Definition query_result (n : nat) : CompletedProcess :=
  subprocess_run w n env (status_query project_name appid_name).

(** What [run_command] returns for it when it exits with 0. *)
Definition query_output (n : nat) : string := strip (stdout (query_result n)).

Definition query_failed (n : nat) : bool :=
  negb (returncode (query_result n) =? 0)%Z.

(** The query succeeds and shows a ready status. *)
Definition query_ready (n : nat) : bool :=
  (returncode (query_result n) =? 0)%Z
  && is_ready (parsed_status (query_output n)).

(** The query succeeds and shows no ready status. *)
Definition query_pending (n : nat) : bool :=
  (returncode (query_result n) =? 0)%Z
  && negb (is_ready (parsed_status (query_output n))).

(** [last_status] after the [k] attempts whose queries are the external
    commands [c], ..., [c + k - 1]. *)
Definition last_status_after (c k : nat) (last_status : option string)
  : option string :=
  fold_left observe (map query_output (seq c k)) last_status.

(** One attempt that does not end the loop: the query, then the delay. *)
Definition poll_round : list event :=
  [EvRun (status_query project_name appid_name) env; EvSleep 10].

Definition poll_rounds (k : nat) : list event :=
  concat (replicate k poll_round).

End Queries.

(** The commands of a trace, in order. *)
Definition commands_of (tr : list event) : list string :=
  omap (fun e => match e with EvRun c _ => Some c | _ => None end) tr.

(** The files removed along a trace, in order. *)
Definition removals_of (tr : list event) : list string :=
  omap (fun e => match e with EvRemove path => Some path | _ => None end) tr.

(** ** Properties of whole runs *)

(** [steady P m]: a run of [m] leaves the environment as it is, runs
    some commands and adds to the trace events that all satisfy [P] for
    that environment. *)
Definition steady (P : gmap string string -> event -> Prop) {A} (m : M A) : Prop :=
  forall st, exists n tr,
    snd (m st) = advance st n tr /\ Forall (P (environ st)) tr.

(** Events other than the start of a command and the removal of a file. *)
Definition is_report (e : event) : Prop :=
  match e with
  | EvRun _ _ | EvRemove _ => False
  | _ => True
  end.

(** The command is started with the environment [env]. *)
Definition started_with (env : gmap string string) (e : event) : Prop :=
  match e with
  | EvRun _ env' => env' = env
  | _ => True
  end.

(** The event is not the removal of a file. *)
Definition no_removal (_ : gmap string string) (e : event) : Prop :=
  match e with
  | EvRemove _ => False
  | _ => True
  end.

(** A command is started with [env], and a file removed is [path]. *)
Definition config_events (path : string) (env : gmap string string) (e : event)
  : Prop :=
  started_with env e
  /\ match e with
     | EvRemove path' => path' = path
     | _ => True
     end.

(** The name [main] gives to [CONFIG_FILE], and the state in which it
    goes on to parse the command line. *)
Definition exported_name (st : State) : string :=
  "dev-" +:+ py_str (environ st !! "QUICKSTART_PROJECT_NAME") +:+ ".yaml".

Definition exporting (st : State) : State :=
  {| environ := <["CONFIG_FILE" := exported_name st]> (environ st);
     calls := calls st; trace := trace st |}.

(** [issues m S]: the commands a run of [m] executes are, in order, the
    beginning of a list of [S], and the whole of one when [m] returns. *)
Definition issues {A} (m : M A) (S : list string -> Prop) : Prop :=
  forall st, exists n tr,
    snd (m st) = advance st n tr
    /\ (exists L, S L /\ commands_of tr `prefix_of` L)
    /\ (forall a, fst (m st) = Val a -> S (commands_of tr)).

(** [m] never returns: it raises or exits. *)
Definition aborts {A} (m : M A) : Prop :=
  forall st a, fst (m st) <> Val a.

(** [m] returns, or ends the process with exit status 1. *)
Definition returns_or_fails {A} (m : M A) : Prop :=
  forall st, (exists a, fst (m st) = Val a)
             \/ exit_status (fst (m st)) = Some 1%Z.

(** The lists made of one of [S1] followed by one of [S2]. *)
Definition then_ (S1 S2 : list string -> Prop) (L : list string) : Prop :=
  exists L1 L2, L = L1 ++ L2 /\ S1 L1 /\ S2 L2.

(** The commands of the scaffolding step. *)
Definition scaffold_commands (w : World) : list string :=
  ["diagrid dev scaffold"]
  ++ (if os_path_exists w env_name then ["rm -rf " +:+ env_name] else [])
  ++ ["python3 -m venv " +:+ env_name;
      "./" +:+ env_name +:+ "/bin/pip install pyyaml";
      "./" +:+ env_name +:+ "/bin/python scaffold.py"].

(** The lists of one to [max_attempts] status queries. *)
Definition status_queries (project_name : option string) (appid_name : string)
    (L : list string) : Prop :=
  exists k, 1 <= k <= max_attempts
            /\ L = replicate k (status_query project_name appid_name).

(** The commands of the three creation steps for the project [prj]. *)
Definition creation_commands (prj : option string) (appid_name : string)
  : list string :=
  ["diagrid project create " +:+ py_str prj +:+ " --deploy-managed-kv";
   "diagrid project use " +:+ py_str prj;
   "diagrid appid create -p " +:+ py_str prj +:+ " " +:+ appid_name].

(** ** Sample worlds *)

Definition exited (code : Z) (out err : string) : CompletedProcess :=
  {| returncode := code; stdout := out; stderr := err |}.

(** A world given by the results of its commands, the parsed command
    line and whether the config file exists; there is no virtual
    environment yet and files can be removed. *)
Definition sample_world (run : nat -> string -> CompletedProcess)
    (args : parse_result) (isfile : bool) : World :=
  {| subprocess_run := fun n _ command => run n command;
     parse_args := args;
     os_path_isfile := fun _ => isfile;
     os_path_exists := fun _ => false;
     os_remove := fun _ => None |}.

(** The process starts with [QUICKSTART_PROJECT_NAME=demo]. *)
Definition demo_state : State :=
  {| environ := {["QUICKSTART_PROJECT_NAME" := "demo"]}; calls := 0; trace := [] |}.

Definition appid_text (status : string) : string :=
  "Name: order-app" +:+ nl +:+ "  Status: " +:+ status +:+ nl.

(** Every command fails. *)
Definition world_down : World :=
  sample_world (fun _ _ => exited 1 "" "connection refused") (Parsed None None) false.

(** Every command succeeds and prints nothing. *)
Definition world_silent : World :=
  sample_world (fun _ _ => exited 0 "" "") (Parsed None None) false.

(** Every command succeeds; the App ID is never ready. *)
Definition world_pending : World :=
  sample_world (fun _ _ => exited 0 (appid_text "Pending") "") (Parsed None None) false.

(** Every command succeeds; the App ID is ready from the command
    number [n] on. *)
Definition world_ready_at (n : nat) (args : parse_result) (isfile : bool) : World :=
  sample_world
    (fun i _ => exited 0 (appid_text (if i <? n then "Pending" else "Ready")) "")
    args isfile.

(** Every command succeeds with a ready App ID; the command line names
    another project and another config file, which exists. *)
Definition world_renamed : World :=
  world_ready_at 0 (Parsed (Some "other") (Some "custom.yaml")) true.

(** Node.js and npm are missing; everything else succeeds at once. *)
Definition world_without_node : World :=
  sample_world
    (fun _ command =>
       if String.eqb command "node -v" || String.eqb command "npm -v"
       then exited 127 "" "command not found"
       else exited 0 (appid_text "Ready") "")
    (Parsed None None) false.

(** ** Vocabulary of the further properties *)

(** The seconds a trace spends in [time.sleep]. *)
Definition seconds_slept (tr : list event) : nat :=
  foldr (fun e total => match e with EvSleep n => n + total | _ => total end) 0 tr.

(** What an [except subprocess.CalledProcessError] clause reports for
    the failed command [cmd]: the failure mark, the error, then the
    captured output and the captured errors, each only when not empty. *)
Definition failure_report (fail_text : string) (code : Z) (cmd out err : string)
  : list event :=
  [EvSpinnerFail fail_text; EvPrintError (CalledProcessError code cmd out err)]
  ++ (if negb (String.eqb out "") then [EvPrint out] else [])
  ++ (if negb (String.eqb err "") then [EvPrint err] else []).

(** A step that runs [command] under a spinner, from [st]: it returns
    when the command exits with 0; otherwise it reports the failure and
    exits with status 1. *)
Definition step_outcome (w : World) (st : State)
    (spinner_text command fail_text : string) : result unit * State :=
  let cp := subprocess_run w (calls st) (environ st) command in
  if (returncode cp =? 0)%Z
  then (Val tt,
        advance st 1
          [EvSpinner spinner_text; EvRun command (environ st); EvSpinnerOk check_mark])
  else (Exc (SystemExit 1),
        advance st 1
          ([EvSpinner spinner_text; EvRun command (environ st)]
           ++ failure_report fail_text (returncode cp) command (stdout cp) (stderr cp))).

(** Events by which the script itself announces a failure. *)
Definition is_failure_mark (e : event) : Prop :=
  match e with
  | EvSpinnerFail _ | EvPrintErr _ => True
  | _ => False
  end.

(** [checked Q m]: a run of [m] announces no failure itself; it returns
    a value of [Q], or lets through the [CalledProcessError] of the last
    command it ran, whose exit status is not 0. *)
Definition checked {A} (Q : A -> Prop) (m : M A) : Prop :=
  forall st, exists n tr,
    snd (m st) = advance st n tr
    /\ Forall (fun e => ~ is_failure_mark e) tr
    /\ match fst (m st) with
       | Val a => Q a
       | Exc (CalledProcessError code cmd _ _) =>
           code <> 0%Z /\ last (commands_of tr) = Some cmd
       | _ => False
       end.

(** The result of the [i]-th command of a run that starts in [st], when
    that command is [command]. *)
Definition result_at (w : World) (st : State) (i : nat) (command : string)
  : CompletedProcess :=
  subprocess_run w (i + calls st) (environ st) command.

(** The App ID is ready at once, but the second command fails. *)
Definition world_second_fails : World :=
  sample_world
    (fun i _ => if i =? 1 then exited 2 "" "forbidden"
                else exited 0 (appid_text "Ready") "")
    (Parsed None None) false.

(** Two attempts see a pending App ID, the third query fails. *)
Definition world_third_query_fails : World :=
  sample_world
    (fun i _ => if i <? 2 then exited 0 (appid_text "Pending") ""
                else exited 1 "" "timeout")
    (Parsed None None) false.

(** * Properties *)

(** ** Strings *)

Section StringFacts.

Lemma app_String c s t : String c s +:+ t = String c (s +:+ t).
Proof. reflexivity. Qed.

Lemma app_empty t : "" +:+ t = t.
Proof. reflexivity. Qed.

Lemma split_skip_not_nil sep k s : split_skip sep k s <> [].
Proof.
  revert k. induction s as [|c s IH]; intros k; cbn [split_skip]; [done|].
  destruct k as [|k]; [|apply IH].
  destruct (starts_with (String c s) sep); [done|].
  destruct (split_skip sep 0 s); done.
Qed.

(** Passing over the rest of a separator. *)
Lemma split_skip_over sep x s :
  split_skip sep (String.length x) (x +:+ s) = split_skip sep 0 s.
Proof.
  induction x as [|c x IH]; [done|].
  rewrite app_String. simpl. exact IH.
Qed.

Lemma starts_with_app s p : starts_with (p +:+ s) p = true.
Proof.
  induction p as [|c p IH]; [done|].
  rewrite app_String. simpl. rewrite Ascii.eqb_refl. exact IH.
Qed.

Lemma contains_cons c s sub :
  contains (String c s) sub = false ->
  starts_with (String c s) sub = false /\ contains s sub = false.
Proof. simpl. intros H. apply orb_false_elim in H. exact H. Qed.

(** A text without the separator is one segment. *)
Lemma split_without sep s : contains s sep = false -> split s sep = [s].
Proof.
  unfold split. induction s as [|c s IH]; intros H; [done|].
  apply contains_cons in H as [H1 H2].
  cbn [split_skip]. rewrite H1, (IH H2). done.
Qed.

(** A text with the separator has at least two segments, so that the
    index 1 of line 85 is in range. *)
Lemma split_with sep s :
  sep <> "" -> contains s sep = true ->
  exists a b rest, split s sep = a :: b :: rest.
Proof.
  intros Hsep. unfold split. induction s as [|c s IH]; intros H.
  - destruct sep; [done|discriminate H].
  - cbn [split_skip]. destruct (starts_with (String c s) sep) eqn:Hp.
    + destruct (split_skip sep (String.length sep - 1) s) as [|b rest] eqn:Hs.
      * by apply split_skip_not_nil in Hs.
      * by exists "", b, rest.
    + simpl in H. rewrite Hp in H. simpl in H.
      destruct (IH H) as (a & b & rest & ->).
      by exists (String c a), b, rest.
Qed.

(** The marker does not overlap itself: if it begins a text that has
    the marker after [a], with [a] not empty, then it begins [a]. *)
Lemma marker_no_overlap c a s :
  starts_with (String c a +:+ "Status:" +:+ s) "Status:" = true ->
  starts_with (String c a) "Status:" = true.
Proof.
  rewrite app_String.
  do 7 (try (destruct a as [|? a];
             [ cbn; rewrite ?andb_false_r; done
             | rewrite ?app_String ])).
  cbn. done.
Qed.

(** Cutting at the first occurrence of the marker. *)
Lemma split_marker_first a s :
  contains a "Status:" = false ->
  split (a +:+ "Status:" +:+ s) "Status:" = a :: split s "Status:".
Proof.
  unfold split. induction a as [|c a IH]; intros H.
  - rewrite app_empty.
    change ("Status:" +:+ s) with (String "S" ("tatus:" +:+ s)).
    cbn [split_skip].
    change (String "S" ("tatus:" +:+ s)) with ("Status:" +:+ s).
    rewrite starts_with_app.
    change (String.length "Status:" - 1) with (String.length "tatus:").
    by rewrite split_skip_over.
  - pose proof H as H'. apply contains_cons in H' as [H1 H2].
    destruct (starts_with (String c a +:+ "Status:" +:+ s) "Status:") eqn:Hp.
    + apply marker_no_overlap in Hp. congruence.
    + rewrite (app_String c a) in *. cbn [split_skip]. rewrite Hp.
      by rewrite (IH H2).
Qed.

End StringFacts.

(** ** The parse of one attempt *)

Section ParseFacts.

(** The [for] loop never fails on its indexing, stops at the first
    line with the marker and leaves its two variables alone when there
    is none. *)
Lemma for_status_lines_find lines status last_status :
  for_status_lines lines status last_status =
  inr (match List.find (fun line => contains line "Status:") lines with
       | Some line => (Some (status_field line), Some (status_field line))
       | None => (status, last_status)
       end).
Proof.
  induction lines as [|line rest IH]; [done|].
  cbn [for_status_lines List.find].
  destruct (contains line "Status:") eqn:Hc; [|exact IH].
  destruct (split_with "Status:" line) as (a & b & tl & Hs); [done|done|].
  unfold status_field. by rewrite Hs.
Qed.

Lemma for_status_lines_output output last_status :
  for_status_lines (split output nl) None last_status =
  inr (parsed_status output, observe last_status output).
Proof.
  rewrite for_status_lines_find. unfold observe, parsed_status, status_line.
  by destruct (List.find _ _).
Qed.

Lemma find_marker_app pre line post :
  Forall (fun l => contains l "Status:" = false) pre ->
  contains line "Status:" = true ->
  List.find (fun l => contains l "Status:") (pre ++ line :: post) = Some line.
Proof.
  induction 1 as [|l pre Hl _ IH]; intros Hline; simpl.
  - by rewrite Hline.
  - rewrite Hl. by apply IH.
Qed.

Lemma find_marker_none lines :
  List.find (fun l => contains l "Status:") lines = None <->
  Forall (fun l => contains l "Status:" = false) lines.
Proof.
  induction lines as [|l lines IH]; simpl.
  - split; [constructor|done].
  - destruct (contains l "Status:") eqn:Hl.
    + split; [done|]. intros H. inversion H; congruence.
    + rewrite IH. split; [by constructor|]. intros H. by inversion H.
Qed.

Lemma contains_marker_app a s : contains (a +:+ "Status:" +:+ s) "Status:" = true.
Proof.
  induction a as [|c a IH].
  - rewrite app_empty.
    destruct s; cbn; done.
  - rewrite app_String. cbn [contains]. rewrite IH. apply orb_true_r.
Qed.

Lemma lower_ready_truthy s : in_ready_vocabulary s -> is_ready (Some s) = true.
Proof.
  unfold in_ready_vocabulary, is_ready, truthy.
  intros [H|H]; rewrite H; destruct s; try discriminate H; done.
Qed.

Lemma is_ready_vocabulary status :
  is_ready status = true -> exists s, status = Some s /\ in_ready_vocabulary s.
Proof.
  destruct status as [s|]; [|done]. unfold is_ready. intros H.
  apply andb_true_iff in H as [_ H]. apply orb_true_iff in H.
  exists s. split; [done|]. unfold in_ready_vocabulary.
  destruct H as [H|H]; apply String.eqb_eq in H; auto.
Qed.

Lemma fold_observe_None outs last_status :
  fold_left observe outs last_status = None <->
  last_status = None /\ Forall (fun o => parsed_status o = None) outs.
Proof.
  revert last_status. induction outs as [|o outs IH]; intros last_status; simpl.
  - split; [by intros ->|by intros [-> _]].
  - rewrite IH. unfold observe. destruct (parsed_status o) eqn:Ho.
    + split; [by intros [? _]|]. intros [_ H]. inversion H; congruence.
    + split; intros [-> H]; split; try done.
      * by constructor.
      * by inversion H.
Qed.

End ParseFacts.

(** ** The polling loop *)

Lemma advance_advance st n tr m tr' :
  advance (advance st n tr) m tr' = advance st (n + m) (tr ++ tr').
Proof.
  unfold advance; simpl. f_equal; [lia|]. by rewrite app_assoc.
Qed.

Lemma advance_none st : advance st 0 [] = st.
Proof. destruct st. unfold advance; simpl. by rewrite app_nil_r. Qed.

Lemma poll_rounds_S env project_name appid_name k :
  poll_rounds env project_name appid_name (S k) =
  poll_rounds env project_name appid_name 1
  ++ poll_rounds env project_name appid_name k.
Proof. reflexivity. Qed.

Section PollFacts.

Variables (w : World) (project_name : option string) (appid_name : string).

Local Abbreviation query := (status_query project_name appid_name).
Local Abbreviation failed st := (query_failed w (environ st) project_name appid_name).
Local Abbreviation ready st := (query_ready w (environ st) project_name appid_name).
Local Abbreviation pending st := (query_pending w (environ st) project_name appid_name).
Local Abbreviation output st := (query_output w (environ st) project_name appid_name).
Local Abbreviation rounds st := (poll_rounds (environ st) project_name appid_name).
Local Abbreviation last_after st :=
  (last_status_after w (environ st) project_name appid_name).
Local Abbreviation loop := (fun fuel => poll_loop w fuel project_name appid_name).

(** One iteration of the loop, by the three things the query can show. *)
Lemma poll_loop_step fuel attempt last_status st :
  attempt <= max_attempts ->
  loop (S fuel) attempt last_status st =
  if failed st (calls st) then
    (Exc no_split, advance st 1 [EvRun query (environ st)])
  else if is_ready (parsed_status (output st (calls st))) then
    (Val Returned,
     advance st 1 [EvRun query (environ st); EvSpinnerOk check_mark])
  else
    loop fuel (attempt + 1) (observe last_status (output st (calls st)))
      (advance st 1 (rounds st 1)).
Proof.
  intros Hle. cbn [poll_loop].
  destruct (attempt <=? max_attempts) eqn:Hleb;
    [|apply Nat.leb_gt in Hleb; lia].
  unfold query_failed, query_output, query_result, bind at 1, run_command.
  destruct (negb _); [done|].
  rewrite for_status_lines_output.
  destruct (is_ready _).
  - unfold bind, emit, ret, advance; simpl. by rewrite <- app_assoc.
  - unfold bind at 1, emit, advance, poll_rounds, poll_round; simpl.
    by rewrite <- app_assoc.
Qed.

Lemma poll_loop_end fuel attempt last_status st :
  max_attempts < attempt ->
  loop fuel attempt last_status st = (Val (Exhausted last_status), st).
Proof.
  intros Hlt. destruct fuel; cbn [poll_loop];
    destruct (attempt <=? max_attempts) eqn:Hleb; try done;
    apply Nat.leb_le in Hleb; lia.
Qed.

Lemma pending_not_failed env n :
  query_pending w env project_name appid_name n = true ->
  query_failed w env project_name appid_name n = false
  /\ is_ready (parsed_status (query_output w env project_name appid_name n)) = false.
Proof.
  unfold query_pending, query_failed. intros H.
  apply andb_true_iff in H as [-> H]. split; [done|].
  by apply negb_true_iff.
Qed.

(** [k] attempts that see no ready status: [k] rounds of query and
    delay, and [last_status] follows [observe]. *)
Lemma poll_loop_rounds k fuel attempt last_status st :
  attempt + k <= S max_attempts ->
  (forall n, calls st <= n < calls st + k -> pending st n = true) ->
  loop (k + fuel) attempt last_status st =
  loop fuel (attempt + k) (last_after st (calls st) k last_status)
    (advance st k (rounds st k)).
Proof.
  revert attempt last_status st.
  induction k as [|k IH]; intros attempt last_status st Hk Hp.
  - by rewrite Nat.add_0_r, advance_none.
  - cbn [Nat.add]. rewrite poll_loop_step by lia.
    destruct (pending_not_failed (environ st) (calls st)) as [-> ->];
      [apply Hp; lia|].
    rewrite IH; [|lia|intros n Hn; apply Hp; simpl in *; lia].
    rewrite advance_advance. unfold last_status_after.
    cbn [seq map fold_left advance environ calls Nat.add].
    f_equal. lia.
Qed.

(** Every run of the loop with enough fuel: some number [k] of rounds
    without a ready status, ended by a failed query, by a ready status,
    or by the end of the attempts. *)
Lemma poll_loop_cases fuel attempt last_status st :
  attempt <= S max_attempts -> S max_attempts <= attempt + fuel ->
  exists k,
    attempt + k <= S max_attempts
    /\ (forall n, calls st <= n < calls st + k -> pending st n = true)
    /\ ((attempt + k <= max_attempts
         /\ failed st (calls st + k) = true
         /\ loop fuel attempt last_status st =
            (Exc no_split,
             advance st (S k) (rounds st k ++ [EvRun query (environ st)])))
        \/ (attempt + k <= max_attempts
            /\ ready st (calls st + k) = true
            /\ loop fuel attempt last_status st =
               (Val Returned,
                advance st (S k)
                  (rounds st k
                   ++ [EvRun query (environ st); EvSpinnerOk check_mark])))
        \/ (attempt + k = S max_attempts
            /\ loop fuel attempt last_status st =
               (Val (Exhausted (last_after st (calls st) k last_status)),
                advance st k (rounds st k)))).
Proof.
  revert attempt last_status st.
  induction fuel as [|fuel IH]; intros attempt last_status st Hle Hfuel.
  - exists 0. split; [lia|]. split; [intros; lia|]. right; right.
    split; [lia|]. rewrite poll_loop_end by lia. by rewrite advance_none.
  - destruct (decide (attempt = S max_attempts)) as [->|Hne].
    { exists 0. split; [lia|]. split; [intros; lia|]. right; right.
      split; [lia|]. rewrite poll_loop_end by lia. by rewrite advance_none. }
    rewrite poll_loop_step by lia.
    destruct (failed st (calls st)) eqn:Hf.
    { exists 0. rewrite !Nat.add_0_r. split; [lia|]. split; [intros; lia|].
      left. split; [lia|]. done. }
    destruct (is_ready (parsed_status (output st (calls st)))) eqn:Hr.
    { exists 0. rewrite !Nat.add_0_r. split; [lia|]. split; [intros; lia|].
      right; left. split; [lia|]. split; [|done].
      unfold query_ready. rewrite Hr.
      unfold query_failed in Hf. apply negb_false_iff in Hf. by rewrite Hf. }
    assert (Hp : pending st (calls st) = true).
    { unfold query_pending. rewrite Hr.
      unfold query_failed in Hf. apply negb_false_iff in Hf. by rewrite Hf. }
    destruct (IH (attempt + 1) (observe last_status (output st (calls st)))
                (advance st 1 (rounds st 1))) as (k & Hk & Hpk & Hcase);
      [lia|lia|].
    cbn [advance environ calls] in Hpk, Hcase.
    exists (S k). split; [lia|]. split.
    { intros n Hn. destruct (decide (n = calls st)) as [->|]; [done|].
      apply Hpk. lia. }
    rewrite !advance_advance in Hcase.
    replace (calls st + S k) with (1 + calls st + k) by lia.
    replace (attempt + S k) with (attempt + 1 + k) by lia.
    destruct Hcase as [(H1 & H2 & ->)|[(H1 & H2 & ->)|(H1 & ->)]].
    + left. split; [done|]. split; [done|].
      by rewrite (poll_rounds_S _ _ _ k), <- app_assoc.
    + right; left. split; [done|]. split; [done|].
      by rewrite (poll_rounds_S _ _ _ k), <- app_assoc.
    + right; right. split; [done|].
      by rewrite (poll_rounds_S _ _ _ k).
Qed.

Lemma poll_loop_failed k fuel attempt last_status st :
  attempt + k <= max_attempts -> k < fuel ->
  (forall n, calls st <= n < calls st + k -> pending st n = true) ->
  failed st (calls st + k) = true ->
  loop fuel attempt last_status st =
  (Exc no_split, advance st (S k) (rounds st k ++ [EvRun query (environ st)])).
Proof.
  intros Hk Hfuel Hp Hf.
  replace fuel with (k + S (fuel - S k)) by lia.
  rewrite poll_loop_rounds by (lia || done).
  rewrite poll_loop_step by lia.
  cbn [advance environ calls]. rewrite (Nat.add_comm k (calls st)), Hf.
  rewrite advance_advance. f_equal. f_equal. lia.
Qed.

Lemma poll_loop_ready k fuel attempt last_status st :
  attempt + k <= max_attempts -> k < fuel ->
  (forall n, calls st <= n < calls st + k -> pending st n = true) ->
  ready st (calls st + k) = true ->
  loop fuel attempt last_status st =
  (Val Returned,
   advance st (S k)
     (rounds st k ++ [EvRun query (environ st); EvSpinnerOk check_mark])).
Proof.
  intros Hk Hfuel Hp Hr.
  replace fuel with (k + S (fuel - S k)) by lia.
  rewrite poll_loop_rounds by (lia || done).
  rewrite poll_loop_step by lia.
  cbn [advance environ calls]. rewrite (Nat.add_comm k (calls st)).
  unfold query_ready in Hr. apply andb_true_iff in Hr as [Hz Hr].
  unfold query_failed. rewrite Hz, Hr. cbn [negb].
  rewrite advance_advance. f_equal. f_equal. lia.
Qed.

Lemma poll_loop_exhausted k fuel attempt last_status st :
  attempt + k = S max_attempts -> k <= fuel ->
  (forall n, calls st <= n < calls st + k -> pending st n = true) ->
  loop fuel attempt last_status st =
  (Val (Exhausted (last_after st (calls st) k last_status)),
   advance st k (rounds st k)).
Proof.
  intros Hk Hfuel Hp.
  replace fuel with (k + (fuel - k)) by lia.
  rewrite poll_loop_rounds by (lia || done).
  by rewrite poll_loop_end by lia.
Qed.

(** The state in which the loop starts, and the three ways
    [check_appid_status] ends. *)
Local Abbreviation started st := (advance st 0 [EvSpinner (waiting_text appid_name)]).

Lemma check_appid_status_unfold st :
  check_appid_status w project_name appid_name st =
  match loop max_attempts 1 None (started st) with
  | (Val Returned, st') => (Val tt, st')
  | (Val (Exhausted last_status), st') =>
      (Exc (SystemExit 1),
       advance st' 0 [EvSpinnerFail (not_ready_text appid_name last_status)])
  | (Exc e, st') => (Exc e, st')
  | (OutOfFuel, st') => (OutOfFuel, st')
  end.
Proof.
  unfold check_appid_status. unfold bind at 1. unfold emit at 1.
  unfold bind at 1. change {| environ := environ st; calls := calls st;
                              trace := trace st ++ [EvSpinner (waiting_text appid_name)] |}
    with (started st).
  destruct (poll_loop w max_attempts project_name appid_name 1 None (started st))
    as [[[|last_status]|e|] st']; done.
Qed.

Lemma check_appid_status_failed k st :
  k < max_attempts ->
  (forall n, calls st <= n < calls st + k -> pending st n = true) ->
  failed st (calls st + k) = true ->
  check_appid_status w project_name appid_name st =
  (Exc no_split,
   advance st (S k)
     (EvSpinner (waiting_text appid_name)
      :: rounds st k ++ [EvRun query (environ st)])).
Proof.
  intros Hk Hp Hf. rewrite check_appid_status_unfold.
  rewrite (poll_loop_failed k) by (done || lia).
  by rewrite advance_advance.
Qed.

Lemma check_appid_status_ready k st :
  k < max_attempts ->
  (forall n, calls st <= n < calls st + k -> pending st n = true) ->
  ready st (calls st + k) = true ->
  check_appid_status w project_name appid_name st =
  (Val tt,
   advance st (S k)
     (EvSpinner (waiting_text appid_name)
      :: rounds st k ++ [EvRun query (environ st); EvSpinnerOk check_mark])).
Proof.
  intros Hk Hp Hr. rewrite check_appid_status_unfold.
  rewrite (poll_loop_ready k) by (done || lia).
  by rewrite advance_advance.
Qed.

Lemma check_appid_status_timeout st :
  (forall n, calls st <= n < calls st + max_attempts -> pending st n = true) ->
  check_appid_status w project_name appid_name st =
  (Exc (SystemExit 1),
   advance st max_attempts
     (EvSpinner (waiting_text appid_name)
      :: rounds st max_attempts
      ++ [EvSpinnerFail
            (not_ready_text appid_name
               (last_after st (calls st) max_attempts None))])).
Proof.
  intros Hp. rewrite check_appid_status_unfold.
  rewrite (poll_loop_exhausted max_attempts) by (done || lia).
  by rewrite !advance_advance.
Qed.

(** Every run of [check_appid_status] is one of the three. *)
Lemma check_appid_status_cases st :
  exists k,
    (forall n, calls st <= n < calls st + k -> pending st n = true)
    /\ ((k < max_attempts /\ failed st (calls st + k) = true)
        \/ (k < max_attempts /\ ready st (calls st + k) = true)
        \/ k = max_attempts).
Proof.
  destruct (poll_loop_cases max_attempts 1 None st) as (k & Hk & Hp & Hcase);
    [unfold max_attempts; lia|lia|].
  exists k. split; [done|].
  destruct Hcase as [(H1 & H2 & _)|[(H1 & H2 & _)|(H1 & _)]].
  - left. split; [lia|done].
  - right; left. split; [lia|done].
  - right; right. lia.
Qed.

End PollFacts.

(** ** The poller: claims C1 to C4, C6 and C7 *)

Lemma app_empty_r s : s +:+ "" = s.
Proof. induction s as [|c s IH]; [done|]. by rewrite app_String, IH. Qed.

Lemma starts_with_inv s p : starts_with s p = true -> exists t, s = p +:+ t.
Proof.
  revert s. induction p as [|c p IH]; intros s H.
  - by exists s.
  - destruct s as [|b s]; [done|]. cbn [starts_with] in H.
    apply andb_true_iff in H as [Hc H]. apply Ascii.eqb_eq in Hc as ->.
    destruct (IH _ H) as [t ->]. by exists t.
Qed.

Lemma last_status_after_S w env project_name appid_name c k last_status :
  last_status_after w env project_name appid_name c (S k) last_status =
  observe (last_status_after w env project_name appid_name c k last_status)
    (query_output w env project_name appid_name (c + k)).
Proof.
  unfold last_status_after. by rewrite seq_S, map_app, fold_left_app.
Qed.

Lemma last_status_after_None w env project_name appid_name c k :
  last_status_after w env project_name appid_name c k None = None <->
  forall n, c <= n < c + k ->
    status_line (query_output w env project_name appid_name n) = None.
Proof.
  unfold last_status_after. rewrite fold_observe_None, Forall_map, Forall_seq.
  split.
  - intros [_ H] n Hn. specialize (H n Hn). unfold parsed_status in H.
    by destruct (status_line _).
  - intros H. split; [done|]. intros n Hn. unfold parsed_status.
    by rewrite (H n Hn).
Qed.

(** C1, on the code as it is: when the status query fails,
    [run_command] gives [None] and line 81 raises [AttributeError] on it.
    The first failed query ends [check_appid_status] at once, after that
    one query, with no delay, no further attempt and no timeout report. *)
Theorem failed_query_aborts_polling w project_name appid_name st :
  query_failed w (environ st) project_name appid_name (calls st) = true ->
  check_appid_status w project_name appid_name st =
  (Exc no_split,
   advance st 1
     [EvSpinner (waiting_text appid_name);
      EvRun (status_query project_name appid_name) (environ st)]).
Proof.
  intros Hf. apply (check_appid_status_failed w project_name appid_name 0).
  - unfold max_attempts. lia.
  - intros n Hn. lia.
  - by rewrite Nat.add_0_r.
Qed.

Lemma failed_query_aborts_polling_witness :
  query_failed world_down (environ demo_state) (Some "demo") "order-app" 0 = true
  /\ exit_status
       (fst (check_appid_status world_down (Some "demo") "order-app" demo_state))
     = Some 1%Z
  /\ commands_of
       (trace (snd (check_appid_status world_down (Some "demo") "order-app" demo_state)))
     = ["diagrid appid get order-app -p demo"].
Proof.
  split; [reflexivity|].
  rewrite (failed_query_aborts_polling world_down (Some "demo") "order-app" demo_state);
    [|reflexivity].
  split; reflexivity.
Defined.

(** The five spellings of section 8 are in the ready vocabulary; the
    other statuses it names, and the empty one, are not. *)
Lemma ready_vocabulary_examples :
  Forall (fun s => is_ready (Some s) = true)
    ["ready"; "Ready"; "READY"; "available"; "Available"]
  /\ Forall (fun s => is_ready (Some s) = false) ["failed"; "pending"; ""; "error"].
Proof. split; repeat constructor. Qed.

Lemma is_ready_iff s : is_ready (Some s) = true <-> in_ready_vocabulary s.
Proof.
  split; [|apply lower_ready_truthy].
  intros H. apply is_ready_vocabulary in H as (s' & [= <-] & H). exact H.
Qed.

(** C3: when the first [k] attempts see no ready status and attempt
    [k + 1], within the 8, parses a status whose lowercase form is
    "ready" or "available", [check_appid_status] returns on that attempt:
    [k + 1] queries in all, the delay after each of the first [k] only,
    and the success mark right after the last query. *)
Theorem ready_status_ends_polling w project_name appid_name st k s :
  k < max_attempts ->
  (forall n, calls st <= n < calls st + k ->
     query_pending w (environ st) project_name appid_name n = true) ->
  returncode (query_result w (environ st) project_name appid_name (calls st + k)) = 0%Z ->
  parsed_status (query_output w (environ st) project_name appid_name (calls st + k))
    = Some s ->
  in_ready_vocabulary s ->
  check_appid_status w project_name appid_name st =
  (Val tt,
   advance st (S k)
     (EvSpinner (waiting_text appid_name)
      :: poll_rounds (environ st) project_name appid_name k
      ++ [EvRun (status_query project_name appid_name) (environ st);
          EvSpinnerOk check_mark])).
Proof.
  intros Hk Hp Hz Hs Hv. apply check_appid_status_ready; [done|done|].
  unfold query_ready. rewrite Hz, Hs. by apply lower_ready_truthy.
Qed.

(** "Status: Ready" on the third query: three queries, two delays. *)
Lemma ready_status_ends_polling_witness :
  let r := check_appid_status (world_ready_at 2 (Parsed None None) false)
             (Some "demo") "order-app" demo_state in
  fst r = Val tt
  /\ calls (snd r) = 3
  /\ trace (snd r) =
     [EvSpinner (waiting_text "order-app");
      EvRun "diagrid appid get order-app -p demo" (environ demo_state); EvSleep 10;
      EvRun "diagrid appid get order-app -p demo" (environ demo_state); EvSleep 10;
      EvRun "diagrid appid get order-app -p demo" (environ demo_state);
      EvSpinnerOk check_mark].
Proof.
  rewrite (ready_status_ends_polling (world_ready_at 2 (Parsed None None) false)
             (Some "demo") "order-app" demo_state 2 "Ready").
  - repeat split.
  - unfold max_attempts. lia.
  - intros n Hn. simpl in Hn.
    destruct n as [|[|n]]; [reflexivity|reflexivity|lia].
  - reflexivity.
  - reflexivity.
  - left. reflexivity.
Defined.

(** [last_status] after [k] attempts is the status of the last of them
    that parsed one. *)
Lemma last_status_after_last w env project_name appid_name c k j s last_status :
  j < k ->
  parsed_status (query_output w env project_name appid_name (c + j)) = Some s ->
  (forall n, c + j < n < c + k ->
     parsed_status (query_output w env project_name appid_name n) = None) ->
  last_status_after w env project_name appid_name c k last_status = Some s.
Proof.
  induction k as [|k IH]; intros Hj Hs Hlater; [lia|].
  rewrite last_status_after_S. unfold observe.
  destruct (decide (j = k)) as [->|Hne]; [by rewrite Hs|].
  rewrite (Hlater (c + k)) by lia.
  apply IH; [lia|done|]. intros n Hn. apply Hlater. lia.
Qed.

Lemma last_status_after_unparsed w env project_name appid_name c k :
  (forall n, c <= n < c + k ->
     parsed_status (query_output w env project_name appid_name n) = None) ->
  last_status_after w env project_name appid_name c k None = None.
Proof.
  intros Hnone. apply last_status_after_None. intros n Hn.
  specialize (Hnone n Hn). unfold parsed_status in Hnone.
  by destruct (status_line _).
Qed.

(** C4: [check_appid_status] returns only on a query that parsed a
    status of the ready vocabulary; and when each of the 8 queries
    succeeds without showing one, it runs exactly 8 rounds, each the
    query followed by the delay of 10 seconds, then reports, in the text
    of line 96, the status parsed by the last attempt that parsed one
    ("None" when none did) and exits with status 1. *)
Theorem not_ready_status_never_succeeds w project_name appid_name st :
  (forall st',
     check_appid_status w project_name appid_name st = (Val tt, st') ->
     exists k s,
       k < max_attempts /\ calls st' = S k + calls st
       /\ returncode (query_result w (environ st) project_name appid_name
                        (calls st + k)) = 0%Z
       /\ parsed_status (query_output w (environ st) project_name appid_name
                           (calls st + k)) = Some s
       /\ in_ready_vocabulary s)
  /\ ((forall n, calls st <= n < calls st + 8 ->
         query_pending w (environ st) project_name appid_name n = true) ->
      exists last_status,
        check_appid_status w project_name appid_name st =
        (Exc (SystemExit 1),
         advance st 8
           (EvSpinner (waiting_text appid_name)
            :: concat
                 (replicate 8
                    [EvRun ("diagrid appid get " +:+ appid_name +:+ " -p "
                            +:+ py_str project_name) (environ st);
                     EvSleep 10])
            ++ [EvSpinnerFail
                  (cross_mark +:+ " " +:+ appid_name
                   +:+ " is not ready. Once current status "
                   +:+ match last_status with Some s => s | None => "None" end
                   +:+ " becomes ready, you can proceed.")]))
        /\ (forall j s,
              j < 8 ->
              parsed_status (query_output w (environ st) project_name appid_name
                               (calls st + j)) = Some s ->
              (forall n, calls st + j < n < calls st + 8 ->
                 parsed_status (query_output w (environ st) project_name
                                  appid_name n) = None) ->
              last_status = Some s)
        /\ ((forall n, calls st <= n < calls st + 8 ->
               parsed_status (query_output w (environ st) project_name
                                appid_name n) = None) ->
            last_status = None)).
Proof.
  split.
  - intros st' Hrun.
    destruct (check_appid_status_cases w project_name appid_name st)
      as (k & Hp & [[Hk Hf]|[[Hk Hr]| ->]]).
    + rewrite (check_appid_status_failed _ _ _ k) in Hrun by done.
      discriminate Hrun.
    + rewrite (check_appid_status_ready _ _ _ k) in Hrun by done.
      injection Hrun as <-.
      unfold query_ready in Hr. apply andb_true_iff in Hr as [Hz Hr].
      apply is_ready_vocabulary in Hr as (s & Hs & Hv).
      exists k, s. repeat split; try done. by apply Z.eqb_eq.
    + rewrite check_appid_status_timeout in Hrun by done. discriminate Hrun.
  - intros Hpending.
    exists (last_status_after w (environ st) project_name appid_name (calls st) 8 None).
    split; [|split].
    + by rewrite check_appid_status_timeout.
    + intros j s Hj Hs Hlater. by apply (last_status_after_last _ _ _ _ _ _ j).
    + apply last_status_after_unparsed.
Qed.

Lemma not_ready_status_never_succeeds_witness :
  let r := check_appid_status world_pending (Some "demo") "order-app" demo_state in
  fst r = Exc (SystemExit 1)
  /\ calls (snd r) = 8
  /\ last (trace (snd r)) =
     Some (EvSpinnerFail
             (cross_mark +:+ " order-app is not ready. Once current status Pending"
              +:+ " becomes ready, you can proceed.")).
Proof.
  destruct (proj2 (not_ready_status_never_succeeds world_pending (Some "demo")
                     "order-app" demo_state))
    as (last_status & Hrun & Hlast & _).
  - intros n Hn. reflexivity.
  - rewrite (Hlast 7 "Pending") in Hrun.
    + rewrite Hrun. vm_compute. repeat split.
    + lia.
    + reflexivity.
    + intros n Hn. lia.
Defined.

(** C2 as stated fails: when no attempt parses a status, the report
    carries the rendering of [None], the text "None", and not
    "unknown". *)
Lemma timeout_without_status_reports_None :
  let r := check_appid_status world_silent (Some "demo") "order-app" demo_state in
  fst r = Exc (SystemExit 1)
  /\ last_status_after world_silent (environ demo_state) (Some "demo") "order-app"
       0 8 None = None
  /\ last (trace (snd r)) =
     Some (EvSpinnerFail
             (cross_mark +:+ " order-app is not ready. Once current status None"
              +:+ " becomes ready, you can proceed."))
  /\ last (trace (snd r)) <>
     Some (EvSpinnerFail
             (cross_mark +:+ " order-app is not ready. Once current status unknown"
              +:+ " becomes ready, you can proceed.")).
Proof.
  vm_compute. split; [reflexivity|]. split; [reflexivity|].
  split; [reflexivity|]. intros H. discriminate H.
Qed.

(** C2, amended: whenever [check_appid_status] exits, it has made its 8
    attempts, the exit status is 1 and the report names the App ID and
    the status parsed last, or "None" when no attempt found a status
    line. *)
Theorem timeout_reports_appid_and_last_status w project_name appid_name st code st' :
  check_appid_status w project_name appid_name st = (Exc (SystemExit code), st') ->
  let last_status :=
    last_status_after w (environ st) project_name appid_name
      (calls st) max_attempts None in
  code = 1%Z
  /\ st' =
     advance st max_attempts
       (EvSpinner (waiting_text appid_name)
        :: poll_rounds (environ st) project_name appid_name max_attempts
        ++ [EvSpinnerFail
              (cross_mark +:+ " " +:+ appid_name
               +:+ " is not ready. Once current status "
               +:+ match last_status with Some s => s | None => "None" end
               +:+ " becomes ready, you can proceed.")])
  /\ (last_status = None <->
      forall n, calls st <= n < calls st + max_attempts ->
        status_line (query_output w (environ st) project_name appid_name n) = None).
Proof.
  intros Hrun last_status.
  destruct (check_appid_status_cases w project_name appid_name st)
    as (k & Hp & [[Hk Hf]|[[Hk Hr]| ->]]).
  - rewrite (check_appid_status_failed _ _ _ k) in Hrun by done. discriminate Hrun.
  - rewrite (check_appid_status_ready _ _ _ k) in Hrun by done. discriminate Hrun.
  - rewrite check_appid_status_timeout in Hrun by done.
    injection Hrun as <- <-. split; [done|]. split; [done|].
    apply last_status_after_None.
Qed.

Lemma timeout_reports_appid_and_last_status_witness :
  exists st',
    check_appid_status world_pending (Some "demo") "order-app" demo_state
    = (Exc (SystemExit 1), st')
    /\ last (trace st') =
       Some (EvSpinnerFail
               (cross_mark +:+ " order-app is not ready. Once current status Pending"
                +:+ " becomes ready, you can proceed.")).
Proof.
  destruct (check_appid_status world_pending (Some "demo") "order-app" demo_state)
    as [r st'] eqn:Hrun.
  assert (Hr : r = Exc (SystemExit 1)).
  { apply (f_equal fst) in Hrun. vm_compute in Hrun. by symmetry. }
  subst r. exists st'. split; [reflexivity|].
  destruct (timeout_reports_appid_and_last_status world_pending (Some "demo")
              "order-app" demo_state 1 st' Hrun) as (_ & -> & _).
  vm_compute. reflexivity.
Defined.

(** C6 as stated fails on a line that has the marker twice: the text
    after the first marker of "Status: a Status: b" is " a Status: b",
    but the status read is "a". *)
Lemma second_marker_cuts_status :
  for_status_lines (split "Status: a Status: b" nl) None None
  = inr (Some "a", Some "a")
  /\ "Status: a Status: b" = "" +:+ "Status:" +:+ " a Status: b"
  /\ strip " a Status: b" = "a Status: b"
  /\ Some (strip " a Status: b") <> Some "a".
Proof.
  vm_compute. split; [reflexivity|]. split; [reflexivity|].
  split; [reflexivity|]. intros H. discriminate H.
Qed.

(** C6, amended: an attempt uses the first line of the output that
    contains "Status:"; the status is the text between the first
    occurrence of the marker on that line and its next occurrence there,
    or the end of the line, with the surrounding whitespace trimmed; it
    becomes both [status] and [last_status], and the lines after it are
    not looked at. *)
Theorem status_is_trimmed_field_of_first_status_line
    output pre line post a v rest last_status :
  split output nl = pre ++ line :: post ->
  Forall (fun l => contains l "Status:" = false) pre ->
  line = a +:+ "Status:" +:+ v +:+ rest ->
  contains a "Status:" = false ->
  contains v "Status:" = false ->
  rest = "" \/ starts_with rest "Status:" = true ->
  for_status_lines (split output nl) None last_status
  = inr (Some (strip v), Some (strip v)).
Proof.
  intros Hlines Hpre -> Ha Hv Hrest.
  rewrite for_status_lines_find, Hlines.
  rewrite find_marker_app by (done || apply contains_marker_app).
  unfold status_field. rewrite (split_marker_first a) by done.
  destruct Hrest as [->|Hrest].
  - rewrite app_empty_r, (split_without _ v) by done. done.
  - apply starts_with_inv in Hrest as [t ->].
    by rewrite (split_marker_first v).
Qed.

Lemma status_is_trimmed_field_of_first_status_line_witness :
  for_status_lines (split (appid_text "Ready" +:+ "Status: late") nl) None None
  = inr (Some "Ready", Some "Ready").
Proof.
  change (Some "Ready") with (Some (strip " Ready")).
  apply (status_is_trimmed_field_of_first_status_line
           (appid_text "Ready" +:+ "Status: late")
           ["Name: order-app"] "  Status: Ready" ["Status: late"]
           "  " " Ready" "" None).
  - vm_compute. reflexivity.
  - repeat constructor.
  - reflexivity.
  - reflexivity.
  - reflexivity.
  - left. reflexivity.
Defined.

(** C7: through the attempts that do not end the loop, [last_status]
    is what [observe] makes of it: after each attempt, the status parsed
    from the first status line of that attempt's output, and the value
    before the attempt when the output has no status line; it is still
    [None] when no output had one. *)
Theorem last_status_changes_only_when_parsed w project_name appid_name st k :
  k <= max_attempts ->
  (forall n, calls st <= n < calls st + k ->
     query_pending w (environ st) project_name appid_name n = true) ->
  let last_status :=
    last_status_after w (environ st) project_name appid_name (calls st) in
  poll_loop w max_attempts project_name appid_name 1 None st
  = poll_loop w (max_attempts - k) project_name appid_name (1 + k)
      (last_status k None)
      (advance st k (poll_rounds (environ st) project_name appid_name k))
  /\ (forall j, j < k ->
        last_status (S j) None =
        match status_line
                (query_output w (environ st) project_name appid_name (calls st + j))
        with
        | Some line => Some (status_field line)
        | None => last_status j None
        end)
  /\ ((forall n, calls st <= n < calls st + k ->
         status_line (query_output w (environ st) project_name appid_name n) = None) ->
      last_status k None = None).
Proof.
  intros Hk Hp last_status. split; [|split].
  - replace max_attempts with (k + (max_attempts - k)) at 1 by lia.
    apply poll_loop_rounds; [unfold max_attempts in *; lia|done].
  - intros j Hj. unfold last_status. rewrite last_status_after_S.
    unfold observe, parsed_status. by destruct (status_line _).
  - intros Hnone. by apply last_status_after_None.
Qed.

Lemma last_status_changes_only_when_parsed_witness :
  poll_loop world_silent max_attempts (Some "demo") "order-app" 1 None demo_state
  = (Val (Exhausted None),
     advance demo_state 8 (poll_rounds (environ demo_state) (Some "demo") "order-app" 8)).
Proof.
  destruct (last_status_changes_only_when_parsed world_silent (Some "demo")
              "order-app" demo_state 8) as (-> & _ & _).
  - unfold max_attempts. lia.
  - intros n Hn. reflexivity.
  - vm_compute. reflexivity.
Defined.

(** ** Whole runs: what every step leaves alone *)

Section Steady.

Variable P : gmap string string -> event -> Prop.
Hypothesis P_run : forall env command, P env (EvRun command env).
Hypothesis P_report : forall env e, is_report e -> P env e.

Lemma steady_ret {A} (a : A) : steady P (ret a).
Proof. intros st. exists 0, []. by rewrite advance_none. Qed.

Lemma steady_raise {A} e : steady P (@raise A e).
Proof. intros st. exists 0, []. by rewrite advance_none. Qed.

Lemma steady_sys_exit {A} code : steady P (@sys_exit A code).
Proof. apply steady_raise. Qed.

Lemma steady_out_of_fuel {A} : steady P (@out_of_fuel A).
Proof. intros st. exists 0, []. by rewrite advance_none. Qed.

Lemma steady_emit e : (forall env, P env e) -> steady P (emit e).
Proof. intros He st. exists 0, [e]. split; [done|]. by constructor. Qed.

Lemma steady_bind {A B} (m : M A) (k : A -> M B) :
  steady P m -> (forall a, steady P (k a)) -> steady P (bind m k).
Proof.
  intros Hm Hk st. destruct (Hm st) as (n & tr & Hst & Htr).
  unfold bind. destruct (m st) as [[a|e|] st1]; simpl in Hst; subst st1.
  - destruct (Hk a (advance st n tr)) as (n' & tr' & -> & Htr').
    exists (n + n'), (tr ++ tr'). rewrite advance_advance. split; [done|].
    apply Forall_app. done.
  - by exists n, tr.
  - by exists n, tr.
Qed.

Lemma steady_try_except {A} (body : M A) handler :
  steady P body -> (forall e h, handler e = Some h -> steady P h) ->
  steady P (try_except body handler).
Proof.
  intros Hb Hh st. destruct (Hb st) as (n & tr & Hst & Htr).
  unfold try_except. destruct (body st) as [[a|e|] st1]; simpl in Hst; subst st1.
  - by exists n, tr.
  - destruct (handler e) as [h|] eqn:He; [|by exists n, tr].
    destruct (Hh e h He (advance st n tr)) as (n' & tr' & -> & Htr').
    exists (n + n'), (tr ++ tr'). rewrite advance_advance. split; [done|].
    apply Forall_app. done.
  - by exists n, tr.
Qed.

Lemma steady_run_command w command check : steady P (run_command w command check).
Proof.
  intros st. exists 1, [EvRun command (environ st)].
  split; [|by repeat constructor].
  unfold run_command. destruct (negb _); [destruct check|]; done.
Qed.

Lemma steady_error {A} message : steady P (@error A message).
Proof.
  unfold error. repeat apply steady_bind; intros;
    try apply steady_sys_exit; apply steady_emit; intros; by apply P_report.
Qed.

End Steady.

Create HintDb steady.
#[local] Hint Resolve steady_ret steady_raise steady_sys_exit steady_out_of_fuel
  steady_run_command steady_error : steady.

(** Proves [steady] of a step from the shape of its code. *)
Ltac steady_step :=
  lazymatch goal with
  | |- steady _ (bind _ _) => apply steady_bind; [|intros ?]
  | |- steady _ (emit _) =>
      apply steady_emit; intros ?;
      try (match goal with
           | H : forall env e, is_report e -> _ |- _ => apply H; exact I
           end)
  | |- steady _ (try_except _ _) => apply steady_try_except
  | |- steady _ (match ?x with _ => _ end) => destruct x eqn:?
  | |- steady _ (let _ := _ in _) => cbv zeta
  | |- _ => solve [eauto with steady]
  end.

Section SteadySteps.

Variable P : gmap string string -> event -> Prop.
Hypothesis P_run : forall env command, P env (EvRun command env).
Hypothesis P_report : forall env e, is_report e -> P env e.
Variable w : World.

Lemma steady_except_CalledProcessError fail_text e h :
  except_CalledProcessError fail_text e = Some h -> steady P h.
Proof.
  destruct e; try discriminate. intros [= <-]. repeat steady_step.
Qed.

Lemma steady_create_project prj : steady P (create_project w prj).
Proof.
  unfold create_project. repeat steady_step.
  intros e h. apply steady_except_CalledProcessError.
Qed.

Lemma steady_set_default_project prj : steady P (set_default_project w prj).
Proof.
  unfold set_default_project. repeat steady_step.
  intros e h. apply steady_except_CalledProcessError.
Qed.

Lemma steady_create_appid prj appid_name : steady P (create_appid w prj appid_name).
Proof.
  unfold create_appid. repeat steady_step.
  intros e h. apply steady_except_CalledProcessError.
Qed.

Lemma steady_poll_loop fuel project_name appid_name attempt last_status :
  steady P (poll_loop w fuel project_name appid_name attempt last_status).
Proof.
  revert attempt last_status.
  induction fuel as [|fuel IH]; intros attempt last_status; cbn [poll_loop];
    repeat steady_step.
Qed.

Lemma steady_check_appid_status project_name appid_name :
  steady P (check_appid_status w project_name appid_name).
Proof.
  unfold check_appid_status. repeat steady_step. apply steady_poll_loop.
Qed.

Lemma steady_scaffold_and_update_config config_file :
  steady P (scaffold_and_update_config w config_file).
Proof. unfold scaffold_and_update_config. repeat steady_step. Qed.

Lemma steady_parser_parse_args prj config_file_name :
  steady P (parser_parse_args w prj config_file_name).
Proof. unfold parser_parse_args. repeat steady_step. Qed.

End SteadySteps.

#[local] Hint Resolve steady_create_project steady_set_default_project
  steady_create_appid steady_check_appid_status
  steady_scaffold_and_update_config steady_parser_parse_args : steady.

(** ** The main program: claims C5, C8, C9 and C10 *)

Lemma bind_val {A B} (m : M A) (k : A -> M B) st a st' :
  m st = (Val a, st') -> bind m k st = k a st'.
Proof. unfold bind. by intros ->. Qed.

Lemma bind_exc {A B} (m : M A) (k : A -> M B) st e st' :
  m st = (Exc e, st') -> bind m k st = (Exc e, st').
Proof. unfold bind. by intros ->. Qed.

(** Runs [main] up to the parse of the command line, whose outcome is
    the hypothesis [Hparse]. *)
Ltac main_to_parse Hparse :=
  unfold main; unfold bind at 1; unfold getenv at 1; cbv beta iota zeta;
  unfold bind at 1; unfold setenv at 1; cbv beta iota;
  unfold bind at 1; unfold parser_parse_args at 1; rewrite Hparse;
  try unfold ret at 1; try unfold sys_exit, raise; cbv beta iota;
  cbn [fst snd].

Lemma main_parser_exit w st code :
  parse_args w = ParserExit code ->
  main w st = (Exc (SystemExit code), exporting st).
Proof. intros Hparse. main_to_parse Hparse. reflexivity. Qed.

(** After the export, [main] is steady for every [P] that allows the
    removal of the config file when that file exists. *)
Lemma main_steady (P : gmap string string -> event -> Prop) w st :
  (forall env command, P env (EvRun command env)) ->
  (forall env e, is_report e -> P env e) ->
  (forall p c, parse_args w = Parsed p c ->
     os_path_isfile w (default (exported_name st) c) = true ->
     forall env, P env (EvRemove (default (exported_name st) c))) ->
  exists n tr,
    snd (main w st) = advance (exporting st) n tr
    /\ Forall (P (environ (exporting st))) tr.
Proof.
  intros P_run P_report P_remove.
  destruct (parse_args w) as [p c|code] eqn:Hparse.
  - specialize (P_remove p c eq_refl).
    main_to_parse Hparse.
    match goal with
    | |- context [bind ?m ?k ?s] =>
        assert (Hsteady : steady P (bind m k));
        [|change s with (exporting st); exact (Hsteady (exporting st))]
    end.
    repeat steady_step.
  - rewrite (main_parser_exit _ _ _ Hparse). exists 0, [].
    by rewrite advance_none.
Qed.

(** C10: whatever the command line, [main] sets [CONFIG_FILE] to the
    name made from [QUICKSTART_PROJECT_NAME] and never changes the
    environment again, so that every command it starts, the companion
    script included, sees that name; the file it removes is the one
    named by [--config-file], or that same name without the flag. *)
Theorem exported_config_file_ignores_command_line w st :
  let exported :=
    "dev-" +:+ py_str (environ st !! "QUICKSTART_PROJECT_NAME") +:+ ".yaml" in
  exists n tr,
    snd (main w st) = advance (exporting st) n tr
    /\ environ (snd (main w st)) !! "CONFIG_FILE" = Some exported
    /\ Forall (started_with (<["CONFIG_FILE" := exported]> (environ st))) tr
    /\ forall p c, parse_args w = Parsed p c ->
         Forall (fun e => forall path, e = EvRemove path -> path = default exported c) tr.
Proof.
  intros exported.
  destruct (parse_args w) as [p c|code] eqn:Hparse.
  - destruct (main_steady (config_events (default exported c)) w st)
      as (n & tr & Hst & Htr).
    + done.
    + by intros ? [].
    + intros p' c' Hp. rewrite Hparse in Hp. injection Hp as <- <-. done.
    + exists n, tr. rewrite Hst. split; [done|]. split.
      { cbn [advance environ exporting]. apply lookup_insert_eq. }
      split.
      * eapply Forall_impl; [exact Htr|]. by intros e [He _].
      * intros p' c' [= <- <-]. eapply Forall_impl; [exact Htr|].
        intros e [_ He] path ->. done.
  - rewrite (main_parser_exit _ _ _ Hparse).
    exists 0, []. rewrite advance_none.
    split; [done|]. split; [apply lookup_insert_eq|]. split; [done|].
    intros p c [=].
Qed.

(** With [--config-file custom.yaml] the file removed is [custom.yaml]
    while [CONFIG_FILE] is [dev-demo.yaml]. *)
Lemma exported_config_file_ignores_command_line_witness :
  environ (snd (main world_renamed demo_state)) !! "CONFIG_FILE" = Some "dev-demo.yaml"
  /\ removals_of (trace (snd (main world_renamed demo_state))) = ["custom.yaml"].
Proof.
  destruct (exported_config_file_ignores_command_line world_renamed demo_state)
    as (n & tr & _ & Henv & _ & _).
  split; [exact Henv|]. vm_compute. reflexivity.
Defined.

Lemma bind_ret {A B} (a : A) (k : A -> M B) st : bind (ret a) k st = k a st.
Proof. reflexivity. Qed.

Lemma bind_emit {B} e (k : unit -> M B) st :
  bind (emit e) k st = k tt (advance st 0 [e]).
Proof. reflexivity. Qed.

Lemma bind_assoc {A B C} (m : M A) (k : A -> M B) (k' : B -> M C) st :
  bind (bind m k) k' st = bind m (fun a => bind (k a) k') st.
Proof. unfold bind. by destruct (m st) as [[a|e|] st1]. Qed.

Lemma error_result {A} message st :
  @error A message st =
  (Exc (SystemExit 1),
   advance st 0 [EvSpinnerFail cross_mark; EvPrintErr ("Error: " +:+ message)]).
Proof.
  unfold error. rewrite !bind_emit. rewrite advance_advance. reflexivity.
Qed.

Lemma no_removal_run env command : no_removal env (EvRun command env).
Proof. done. Qed.

Lemma no_removal_report env e : is_report e -> no_removal env e.
Proof. by destruct e. Qed.

(** The events of the scaffolding step begin with its spinner and hold
    no removal. *)
Lemma scaffold_events w config_file st :
  exists n tr,
    snd (scaffold_and_update_config w config_file st)
    = advance st n (EvSpinner "Preparing dev config file..." :: tr)
    /\ Forall (no_removal (environ st)) tr.
Proof.
  pose proof no_removal_run as P_run. pose proof no_removal_report as P_report.
  unfold scaffold_and_update_config. rewrite bind_emit.
  match goal with
  | |- context [bind ?m ?k ?s] =>
      assert (Hsteady : steady no_removal (bind m k)) by (repeat steady_step);
      destruct (Hsteady s) as (n & tr & -> & Htr)
  end.
  exists n, tr. by rewrite advance_advance.
Qed.

(** C8: when the four steps before it have succeeded, [main] looks for
    the config file; if it is there, [main] removes it and only then
    runs the scaffolding step (or stops with status 1 when the removal
    fails); if it is not there, [main] goes to the scaffolding step at
    once, and no removal is attempted anywhere in the run.  The
    scaffolding step itself removes nothing. *)
Theorem config_file_removed_iff_present w st p c sa sb sc sd :
  let prj := environ st !! "QUICKSTART_PROJECT_NAME" in
  let project_name := match p with Some v => Some v | None => prj end in
  let config_file := default (exported_name st) c in
  parse_args w = Parsed p c ->
  create_project w prj (exporting st) = (Val tt, sa) ->
  set_default_project w prj sa = (Val tt, sb) ->
  create_appid w prj "order-app" sb = (Val tt, sc) ->
  check_appid_status w project_name "order-app" sc = (Val tt, sd) ->
  main w st =
  (if os_path_isfile w config_file then
     match os_remove w config_file with
     | None =>
         scaffold_and_update_config w config_file
           (advance sd 0
              [EvPrint ("Existing dev config file found: " +:+ config_file);
               EvRemove config_file;
               EvPrint ("Deleted existing config file: " +:+ config_file)])
     | Some e =>
         (Exc (SystemExit 1),
          advance sd 0
            [EvPrint ("Existing dev config file found: " +:+ config_file);
             EvRemove config_file;
             EvSpinner ("Error deleting file " +:+ config_file);
             EvSpinnerFail cross_mark;
             EvPrintErr ("Error: " +:+ "Error deleting file " +:+ config_file
                         +:+ ": " +:+ e)])
     end
   else scaffold_and_update_config w config_file sd)
  /\ (os_path_isfile w config_file = false ->
      exists n tr,
        snd (main w st) = advance (exporting st) n tr
        /\ Forall (fun e => forall path, e <> EvRemove path) tr)
  /\ (forall s, exists n tr,
        snd (scaffold_and_update_config w config_file s)
        = advance s n (EvSpinner "Preparing dev config file..." :: tr)
        /\ Forall (fun e => forall path, e <> EvRemove path) tr).
Proof.
  intros prj project_name config_file Hparse Ha Hb Hc Hd.
  split; [|split].
  - main_to_parse Hparse.
    rewrite (bind_val _ _ _ _ _ Ha), (bind_val _ _ _ _ _ Hb),
      (bind_val _ _ _ _ _ Hc), (bind_val _ _ _ _ _ Hd).
    fold prj. change (match c with Some c0 => c0 | None => _ end) with config_file.
    destruct (os_path_isfile w config_file); [|by rewrite bind_ret].
    repeat (rewrite bind_assoc || rewrite bind_emit).
    destruct (os_remove w config_file) as [e|];
      repeat (rewrite bind_assoc || rewrite bind_emit).
    + erewrite bind_exc by apply error_result.
      unfold advance. cbn [environ calls trace Nat.add].
      by rewrite <- !app_assoc.
    + by rewrite !advance_advance.
  - intros Hfile.
    destruct (main_steady no_removal w st) as (n & tr & Hst & Htr).
    + apply no_removal_run.
    + apply no_removal_report.
    + intros p' c' Hp. rewrite Hparse in Hp. injection Hp as <- <-.
      fold config_file. congruence.
    + exists n, tr. split; [done|]. eapply Forall_impl; [exact Htr|].
      intros e He path ->. exact He.
  - intros s. destruct (scaffold_events w config_file s) as (n & tr & Hs & Htr).
    exists n, tr. split; [done|]. eapply Forall_impl; [exact Htr|].
    intros e He path ->. exact He.
Qed.

(** ** Whole runs: the commands, in order *)

Lemma commands_of_app tr tr' :
  commands_of (tr ++ tr') = commands_of tr ++ commands_of tr'.
Proof. apply omap_app. Qed.

Lemma commands_of_rounds env project_name appid_name k :
  commands_of (poll_rounds env project_name appid_name k)
  = replicate k (status_query project_name appid_name).
Proof.
  induction k as [|k IH]; [done|].
  rewrite poll_rounds_S, commands_of_app, IH. done.
Qed.

Section Issues.

Lemma issues_ret {A} (a : A) : issues (ret a) (eq []).
Proof.
  intros st. exists 0, []. rewrite advance_none. split; [done|].
  split; [by exists []|done].
Qed.

Lemma issues_raise {A} e : issues (@raise A e) (eq []).
Proof.
  intros st. exists 0, []. rewrite advance_none. split; [done|].
  split; [by exists []|done].
Qed.

Lemma issues_emit e : commands_of [e] = [] -> issues (emit e) (eq []).
Proof.
  intros He st. exists 0, [e]. split; [done|]. rewrite He.
  split; [by exists []|done].
Qed.

Lemma issues_run_command w command check :
  issues (run_command w command check) (eq [command]).
Proof.
  intros st. exists 1, [EvRun command (environ st)]. split.
  - unfold run_command. destruct (negb _); [destruct check|]; done.
  - split; [by exists [command]|done].
Qed.

Lemma issues_weaken {A} (m : M A) (S1 S2 : list string -> Prop) :
  (forall L, S1 L -> S2 L) -> issues m S1 -> issues m S2.
Proof.
  intros HS Hm st. destruct (Hm st) as (n & tr & Hst & (L & HL & Hpre) & Hval).
  exists n, tr. split; [done|]. split; [exists L; auto|].
  intros a Ha. apply HS. by apply (Hval a).
Qed.

Lemma issues_bind {A B} (m : M A) (k : A -> M B) S1 S2 :
  issues m S1 -> (forall a, issues (k a) S2) -> (exists L, S2 L) ->
  issues (bind m k) (then_ S1 S2).
Proof.
  intros Hm Hk [L2 HL2] st.
  destruct (Hm st) as (n & tr & Hst & (L1 & HL1 & Hpre) & Hval).
  unfold bind. destruct (m st) as [[a|e|] st1]; simpl in Hst; subst st1.
  - destruct (Hk a (advance st n tr))
      as (n' & tr' & Hst' & (L' & HL' & Hpre') & Hval').
    exists (n + n'), (tr ++ tr'). rewrite Hst', advance_advance.
    split; [done|]. rewrite commands_of_app.
    specialize (Hval a eq_refl). split.
    + exists (commands_of tr ++ L'). split; [by exists (commands_of tr), L'|].
      by apply prefix_app.
    + intros b Hb. exists (commands_of tr), (commands_of tr'). eauto.
  - exists n, tr. split; [done|]. split; [|done].
    exists (L1 ++ L2). split; [by exists L1, L2|]. by apply prefix_app_r.
  - exists n, tr. split; [done|]. split; [|done].
    exists (L1 ++ L2). split; [by exists L1, L2|]. by apply prefix_app_r.
Qed.

(** Sequencing with a part that runs no command. *)
Lemma issues_after {A B} (m : M A) (k : A -> M B) S :
  issues m (eq []) -> (forall a, issues (k a) S) -> (exists L, S L) ->
  issues (bind m k) S.
Proof.
  intros Hm Hk HS. eapply issues_weaken; [|by apply issues_bind].
  by intros L (L1 & L2 & -> & <- & HL).
Qed.

Lemma issues_before {A B} (m : M A) (k : A -> M B) S :
  issues m S -> (forall a, issues (k a) (eq [])) -> issues (bind m k) S.
Proof.
  intros Hm Hk. eapply issues_weaken; [|apply issues_bind; [done|done|by exists []]].
  intros L (L1 & L2 & -> & HL & <-). by rewrite app_nil_r.
Qed.

Lemma issues_cons {A B} (m : M A) (k : A -> M B) command L :
  issues m (eq [command]) -> (forall a, issues (k a) (eq L)) ->
  issues (bind m k) (eq (command :: L)).
Proof.
  intros Hm Hk. eapply issues_weaken; [|apply issues_bind; [done|done|by exists L]].
  by intros L' (L1 & L2 & -> & <- & <-).
Qed.

Lemma issues_try_except {A} (body : M A) handler S :
  issues body S ->
  (forall e h, handler e = Some h -> issues h (eq []) /\ aborts h) ->
  issues (try_except body handler) S.
Proof.
  intros Hb Hh st.
  destruct (Hb st) as (n & tr & Hst & (L & HL & Hpre) & Hval).
  unfold try_except. destruct (body st) as [[a|e|] st1] eqn:Hbody;
    simpl in Hst; subst st1.
  - exists n, tr. split; [done|]. split; [by exists L|done].
  - destruct (handler e) as [h|] eqn:He.
    + destruct (Hh e h He) as [Hq Ha].
      destruct (Hq (advance st n tr)) as (n' & tr' & Hst' & (L' & <- & Hpre') & _).
      apply prefix_nil_inv in Hpre'.
      exists (n + n'), (tr ++ tr'). rewrite Hst', advance_advance.
      split; [done|]. rewrite commands_of_app, Hpre', app_nil_r.
      split; [by exists L|]. intros a Hv. by apply Ha in Hv.
    + exists n, tr. split; [done|]. split; [by exists L|done].
  - exists n, tr. split; [done|]. split; [by exists L|done].
Qed.

Lemma aborts_bind {A B} (m : M A) (k : A -> M B) :
  (forall a, aborts (k a)) -> aborts (bind m k).
Proof.
  intros Hk st b. unfold bind. destruct (m st) as [[a|e|] st1]; [apply Hk|done|done].
Qed.

Lemma aborts_sys_exit {A} code : aborts (@sys_exit A code).
Proof. by intros st a. Qed.

End Issues.

(** Proves that a step made of reports only runs no command. *)
Ltac quiet_step :=
  lazymatch goal with
  | |- issues (bind _ _) (eq []) =>
      apply issues_after; [|intros ?|by exists []]
  | |- issues (emit _) _ => apply issues_emit; reflexivity
  | |- issues (ret _) _ => apply issues_ret
  | |- issues (raise _) _ => apply issues_raise
  | |- issues (sys_exit _) _ => apply issues_raise
  | |- issues (error _) _ => unfold error
  | |- issues (match ?x with _ => _ end) _ => destruct x
  end.

Section IssuesSteps.

Variable w : World.

Lemma issues_assoc {A B C} (m : M A) (k : A -> M B) (k' : B -> M C) S :
  issues (bind m (fun a => bind (k a) k')) S -> issues (bind (bind m k) k') S.
Proof. intros H st. rewrite bind_assoc. apply H. Qed.

Lemma except_CalledProcessError_aborts fail_text e h :
  except_CalledProcessError fail_text e = Some h ->
  issues h (eq []) /\ aborts h.
Proof.
  destruct e; try discriminate. intros [= <-]. split.
  - repeat quiet_step.
  - repeat (apply aborts_bind; intros ?). apply aborts_sys_exit.
Qed.

(** The shape the three creation steps share. *)
Lemma issues_guarded spinner_text command fail_text :
  issues
    (emit (EvSpinner spinner_text) ;;;
     try_except (run_command w command true ;;; emit (EvSpinnerOk check_mark))
       (except_CalledProcessError fail_text))
    (eq [command]).
Proof.
  apply issues_after; [repeat quiet_step| |by exists [command]].
  intros _. apply issues_try_except.
  - apply issues_before; [apply issues_run_command|]. intros _. repeat quiet_step.
  - apply except_CalledProcessError_aborts.
Qed.

Lemma issues_check_appid_status project_name appid_name :
  issues (check_appid_status w project_name appid_name)
    (status_queries project_name appid_name).
Proof.
  intros st.
  assert (Hcmds : forall k tail,
            commands_of tail = [status_query project_name appid_name] ->
            commands_of (EvSpinner (waiting_text appid_name)
                         :: poll_rounds (environ st) project_name appid_name k ++ tail)
            = replicate (S k) (status_query project_name appid_name)).
  { intros k tail Htail.
    change (EvSpinner ?t :: ?l) with ([EvSpinner t] ++ l).
    rewrite !commands_of_app, commands_of_rounds, Htail, replicate_S_end. done. }
  destruct (check_appid_status_cases w project_name appid_name st)
    as (k & Hp & [[Hk Hf]|[[Hk Hr]| ->]]).
  - rewrite (check_appid_status_failed _ _ _ k) by done.
    eexists _, _. split; [reflexivity|]. rewrite Hcmds by done.
    split; [|done]. eexists. split; [|reflexivity]. exists (S k). split; [lia|done].
  - rewrite (check_appid_status_ready _ _ _ k) by done.
    eexists _, _. split; [reflexivity|]. rewrite Hcmds by done.
    assert (status_queries project_name appid_name
              (replicate (S k) (status_query project_name appid_name)))
      by (exists (S k); split; [lia|done]).
    split; [by eexists|done].
  - rewrite check_appid_status_timeout by done.
    eexists _, _. split; [reflexivity|].
    change (EvSpinner ?t :: ?l) with ([EvSpinner t] ++ l).
    rewrite !commands_of_app, commands_of_rounds. cbn [commands_of omap app].
    rewrite app_nil_r. split; [|done]. eexists. split; [|reflexivity].
    exists max_attempts. split; [unfold max_attempts; lia|done].
Qed.

Lemma issues_scaffold_and_update_config config_file :
  issues (scaffold_and_update_config w config_file) (eq (scaffold_commands w)).
Proof.
  unfold scaffold_and_update_config, scaffold_commands.
  apply issues_after; [repeat quiet_step| |by eexists].
  intros _. apply issues_cons; [apply issues_run_command|]. intros scaffold_output.
  apply issues_after; [repeat quiet_step| |by eexists]. intros _.
  assert (Hrest : issues
            (run_command w ("python3 -m venv " +:+ env_name) true ;;;
             run_command w ("./" +:+ env_name +:+ "/bin/pip install pyyaml") true ;;;
             run_command w ("./" +:+ env_name +:+ "/bin/python scaffold.py") true ;;;
             emit (EvSpinnerOk check_mark))
            (eq ["python3 -m venv " +:+ env_name;
                 "./" +:+ env_name +:+ "/bin/pip install pyyaml";
                 "./" +:+ env_name +:+ "/bin/python scaffold.py"])).
  { repeat (apply issues_cons; [apply issues_run_command|intros _]).
    repeat quiet_step. }
  destruct (os_path_exists w env_name); cbn [app].
  - apply issues_assoc. apply issues_cons; [apply issues_run_command|]. intros _.
    apply issues_after; [apply issues_ret| |by eexists]. intros _. exact Hrest.
  - apply issues_after; [apply issues_ret| |by eexists]. intros _. exact Hrest.
Qed.

(** A step that goes through its first command whatever follows. *)
Lemma create_project_runs prj st :
  exists n tr,
    snd (create_project w prj st)
    = advance st n
        (EvSpinner ("Creating project " +:+ py_str prj +:+ "...")
         :: EvRun ("diagrid project create " +:+ py_str prj +:+ " --deploy-managed-kv")
              (environ st)
         :: tr).
Proof.
  unfold create_project. rewrite bind_emit.
  unfold try_except, bind at 1, run_command.
  cbn [advance environ calls trace].
  destruct (negb _).
  - match goal with
    | |- context [except_CalledProcessError ?t ?e] =>
        destruct (except_CalledProcessError t e) as [h|] eqn:He
    end; [|discriminate He].
    match goal with
    | |- context [h ?s] =>
        destruct (steady_except_CalledProcessError (fun _ _ => True)
                    (fun _ e _ => I) _ _ _ He s)
          as (n & tr & -> & _)
    end.
    exists (S n), tr. unfold advance. cbn [environ calls trace].
    f_equal; [lia|]. by rewrite <- !app_assoc.
  - exists 1, [EvSpinnerOk check_mark]. unfold emit, advance.
    cbn [environ calls trace]. f_equal. by rewrite <- !app_assoc.
Qed.

End IssuesSteps.

Section MainCommands.

Variable w : World.

Lemma issues_create_project prj :
  issues (create_project w prj)
    (eq ["diagrid project create " +:+ py_str prj +:+ " --deploy-managed-kv"]).
Proof. apply issues_guarded. Qed.

Lemma issues_set_default_project prj :
  issues (set_default_project w prj) (eq ["diagrid project use " +:+ py_str prj]).
Proof. apply issues_guarded. Qed.

Lemma issues_create_appid prj appid_name :
  issues (create_appid w prj appid_name)
    (eq ["diagrid appid create -p " +:+ py_str prj +:+ " " +:+ appid_name]).
Proof. apply issues_guarded. Qed.

Lemma then_inhabited (S1 S2 : list string -> Prop) :
  (exists L, S1 L) -> (exists L, S2 L) -> exists L, then_ S1 S2 L.
Proof. intros [L1 H1] [L2 H2]. by exists (L1 ++ L2), L1, L2. Qed.

Lemma status_queries_inhabited project_name appid_name :
  exists L, status_queries project_name appid_name L.
Proof. eexists. exists 1. split; [unfold max_attempts; lia|reflexivity]. Qed.

(** What follows a step in a sequence starts from the state the step
    leaves. *)
Lemma bind_continues {A B} (m : M A) (k : A -> M B) st :
  (forall a, steady (fun _ _ => True) (k a)) ->
  exists n tr, snd (bind m k st) = advance (snd (m st)) n tr.
Proof.
  intros Hk. unfold bind. destruct (m st) as [[a|e|] st1]; cbn [snd].
  - destruct (Hk a st1) as (n & tr & -> & _). by exists n, tr.
  - exists 0, []. by rewrite advance_none.
  - exists 0, []. by rewrite advance_none.
Qed.

(** The commands of a run of [main] whose command line parses. *)
Lemma main_commands st p c r :
  parse_args w = Parsed p c ->
  main w st = r ->
  let prj := environ st !! "QUICKSTART_PROJECT_NAME" in
  let project_name := match p with Some v => Some v | None => prj end in
  exists n tr k rest,
    snd r = advance (exporting st) n tr
    /\ 1 <= k <= max_attempts
    /\ commands_of tr `prefix_of`
       (creation_commands prj "order-app"
        ++ replicate k (status_query project_name "order-app")
        ++ scaffold_commands w)
    /\ commands_of tr
       = ("diagrid project create " +:+ py_str prj +:+ " --deploy-managed-kv") :: rest
    /\ (forall a, fst r = Val a ->
          commands_of tr
          = creation_commands prj "order-app"
            ++ replicate k (status_query project_name "order-app")
            ++ scaffold_commands w).
Proof.
  intros Hparse. main_to_parse Hparse. intros <-.
  set (prj := environ st !! "QUICKSTART_PROJECT_NAME").
  set (project_name := match p with Some v => Some v | None => prj end).
  match goal with
  | |- context [bind (create_project w ?prj) ?k ?s] =>
      change s with (exporting st);
      assert (Hsteady : forall a, steady (fun _ _ => True) (k a));
      [|assert (Hissues :
          issues (bind (create_project w prj) k)
            (then_ (eq ["diagrid project create " +:+ py_str prj +:+ " --deploy-managed-kv"])
               (then_ (eq ["diagrid project use " +:+ py_str prj])
                  (then_ (eq ["diagrid appid create -p " +:+ py_str prj +:+ " order-app"])
                     (then_ (status_queries
                               (match p with Some v => Some v | None => prj end)
                               "order-app")
                        (eq (scaffold_commands w)))))));
       [|destruct (Hissues (exporting st))
           as (n & tr & Hst & (L & HL & Hpre) & Hval);
         destruct (bind_continues (create_project w prj) k (exporting st) Hsteady)
           as (n' & tr' & Hst');
         destruct (create_project_runs w prj (exporting st)) as (n0 & tr0 & Hst0)]]
  end.
  - intros _. assert (P_run : forall (env : gmap string string) (command : string), True) by done.
    assert (P_report : forall (env : gmap string string) e, is_report e -> True) by done.
    repeat steady_step; done.
  - apply issues_bind; [apply issues_create_project|intros _|].
    2: { repeat (apply then_inhabited; [by eexists|]).
         apply then_inhabited; [apply status_queries_inhabited|by eexists]. }
    apply issues_bind; [apply issues_set_default_project|intros _|].
    2: { repeat (apply then_inhabited; [by eexists|]).
         apply then_inhabited; [apply status_queries_inhabited|by eexists]. }
    apply issues_bind; [apply issues_create_appid|intros _|].
    2: { apply then_inhabited; [apply status_queries_inhabited|by eexists]. }
    apply issues_bind; [apply issues_check_appid_status|intros _|by eexists].
    apply issues_after; [|intros _; apply issues_scaffold_and_update_config|by eexists].
    repeat quiet_step.
  - rewrite Hst0, advance_advance in Hst'.
    assert (Htr : tr = EvSpinner ("Creating project " +:+ py_str prj +:+ "...")
                       :: EvRun ("diagrid project create " +:+ py_str prj
                                 +:+ " --deploy-managed-kv") (environ (exporting st))
                       :: tr0 ++ tr').
    { rewrite Hst in Hst'. apply (f_equal trace) in Hst'.
      cbn [advance trace] in Hst'. by apply app_inv_head in Hst'. }
    assert (Hshape : forall L,
              then_ (eq ["diagrid project create " +:+ py_str prj +:+ " --deploy-managed-kv"])
                (then_ (eq ["diagrid project use " +:+ py_str prj])
                   (then_ (eq ["diagrid appid create -p " +:+ py_str prj +:+ " order-app"])
                      (then_ (status_queries project_name "order-app")
                         (eq (scaffold_commands w))))) L ->
              exists k, 1 <= k <= max_attempts
                        /\ L = creation_commands prj "order-app"
                                ++ replicate k (status_query project_name "order-app")
                                ++ scaffold_commands w).
    { intros L' (L1 & L2 & -> & <- & L3 & L4 & -> & <- & L5 & L6 & -> & <-
                 & L7 & L8 & -> & (k & Hk & ->) & <-).
      by exists k. }
    match goal with
    | |- context [fst ?r] => destruct (fst r) as [a| |] eqn:Hr
    end.
    + destruct (Hshape _ (Hval a eq_refl)) as (k & Hk & Hall).
      exists n, tr, k, (commands_of (tr0 ++ tr')).
      split; [done|]. split; [done|]. split; [by rewrite Hall|].
      split; [by rewrite Htr|done].
    + destruct (Hshape _ HL) as (k & Hk & ->).
      exists n, tr, k, (commands_of (tr0 ++ tr')).
      split; [done|]. split; [done|]. split; [done|]. split; [by rewrite Htr|done].
    + destruct (Hshape _ HL) as (k & Hk & ->).
      exists n, tr, k, (commands_of (tr0 ++ tr')).
      split; [done|]. split; [done|]. split; [done|]. split; [by rewrite Htr|done].
Qed.

End MainCommands.

(** ** Whole runs: the exit status *)

Section ExitStatus.

Lemma returns_ret {A} (a : A) : returns_or_fails (ret a).
Proof. intros st. left. by exists a. Qed.

Lemma fails_sys_exit_1 {A} : returns_or_fails (@sys_exit A 1).
Proof. intros st. by right. Qed.

Lemma returns_emit e : returns_or_fails (emit e).
Proof. intros st. left. by exists tt. Qed.

Lemma returns_run_command w command check :
  returns_or_fails (run_command w command check).
Proof.
  intros st. unfold run_command.
  destruct (negb _); [destruct check|]; [by right|left; by eexists..].
Qed.

Lemma returns_bind {A B} (m : M A) (k : A -> M B) :
  returns_or_fails m -> (forall a, returns_or_fails (k a)) ->
  returns_or_fails (bind m k).
Proof.
  intros Hm Hk st. specialize (Hm st). unfold bind.
  destruct (m st) as [[a|e|] st1]; cbn [fst] in *.
  - apply Hk.
  - destruct Hm as [[a Ha]|Hm]; [done|by right].
  - destruct Hm as [[a Ha]|Hm]; done.
Qed.

Lemma returns_try_except {A} (body : M A) handler :
  returns_or_fails body ->
  (forall e h, handler e = Some h -> returns_or_fails h) ->
  returns_or_fails (try_except body handler).
Proof.
  intros Hb Hh st. specialize (Hb st). unfold try_except.
  destruct (body st) as [[a|e|] st1]; cbn [fst] in *; [done| |done].
  destruct (handler e) as [h|] eqn:He; [by apply (Hh e h)|done].
Qed.

Lemma fails_no_split {A} : returns_or_fails (@raise A no_split).
Proof. intros st. by right. Qed.

Lemma returns_check_appid_status w project_name appid_name :
  returns_or_fails (check_appid_status w project_name appid_name).
Proof.
  intros st.
  destruct (check_appid_status_cases w project_name appid_name st)
    as (k & Hp & [[Hk Hf]|[[Hk Hr]| ->]]).
  - rewrite (check_appid_status_failed _ _ _ k) by done. by right.
  - rewrite (check_appid_status_ready _ _ _ k) by done. left. by exists tt.
  - rewrite check_appid_status_timeout by done. by right.
Qed.

End ExitStatus.

Create HintDb exits.
#[local] Hint Resolve returns_ret fails_sys_exit_1 returns_emit returns_run_command
  returns_check_appid_status : exits.

(** Proves [returns_or_fails] of a step from the shape of its code. *)
Ltac exits_step :=
  lazymatch goal with
  | |- returns_or_fails (bind _ _) => apply returns_bind; [|intros ?]
  | |- returns_or_fails (try_except _ _) => apply returns_try_except
  | |- returns_or_fails (error _) => unfold error
  | |- returns_or_fails (match ?x with _ => _ end) => destruct x
  | |- _ => solve [eauto with exits]
  end.

Section ExitStatusSteps.

Variable w : World.

Lemma returns_except_CalledProcessError fail_text e h :
  except_CalledProcessError fail_text e = Some h -> returns_or_fails h.
Proof. destruct e; try discriminate. intros [= <-]. repeat exits_step. Qed.

Lemma returns_create_project prj : returns_or_fails (create_project w prj).
Proof.
  unfold create_project. repeat exits_step.
  apply returns_except_CalledProcessError.
Qed.

Lemma returns_set_default_project prj :
  returns_or_fails (set_default_project w prj).
Proof.
  unfold set_default_project. repeat exits_step.
  apply returns_except_CalledProcessError.
Qed.

Lemma returns_create_appid prj appid_name :
  returns_or_fails (create_appid w prj appid_name).
Proof.
  unfold create_appid. repeat exits_step.
  apply returns_except_CalledProcessError.
Qed.

Lemma returns_scaffold_and_update_config config_file :
  returns_or_fails (scaffold_and_update_config w config_file).
Proof. unfold scaffold_and_update_config. repeat exits_step. Qed.

Lemma returns_check_js_installed : returns_or_fails (check_js_installed w).
Proof. unfold check_js_installed. repeat exits_step. Qed.

#[local] Hint Resolve returns_create_project returns_set_default_project
  returns_create_appid returns_scaffold_and_update_config : exits.

(** A run of [main] whose command line parses ends with exit status 0
    or 1, and with 0 only when it has gone through all its commands. *)
Lemma main_exit_status st p c :
  parse_args w = Parsed p c ->
  let prj := environ st !! "QUICKSTART_PROJECT_NAME" in
  let project_name := match p with Some v => Some v | None => prj end in
  (exit_status (fst (main w st)) = Some 0%Z
   /\ exists k tr,
        1 <= k <= max_attempts
        /\ trace (snd (main w st)) = trace st ++ tr
        /\ commands_of tr
           = creation_commands prj "order-app"
             ++ replicate k (status_query project_name "order-app")
             ++ scaffold_commands w)
  \/ exit_status (fst (main w st)) = Some 1%Z.
Proof.
  intros Hparse prj project_name.
  destruct (main_commands w st p c _ Hparse eq_refl)
    as (n & tr & k & rest & Hst & Hk & _ & _ & Hval).
  assert (Hexit : forall r, main w st = r ->
                    (exists a, fst r = Val a) \/ exit_status (fst r) = Some 1%Z).
  { intros r. main_to_parse Hparse. intros <-.
    match goal with
    | |- context [bind ?m ?k ?s] =>
        assert (Hr : returns_or_fails (bind m k)) by (repeat exits_step);
        exact (Hr s)
    end. }
  destruct (Hexit _ eq_refl) as [[a Ha]|H1]; [left|by right].
  split; [by rewrite Ha|]. exists k, tr. split; [done|].
  split; [by rewrite Hst|]. by apply (Hval a).
Qed.

End ExitStatusSteps.

(** C5: in a run of [main] whose command line parses, the commands are,
    in order, the beginning of: the three creation commands, made with
    the value of [QUICKSTART_PROJECT_NAME]; between one and 8 status
    queries, made with the value of [--project-name] (the environment
    value only without the flag); the commands of the scaffolding step.
    The project creation command is always run, and a run that returns
    has run them all. *)
Theorem creation_steps_use_environment_name w st p c :
  parse_args w = Parsed p c ->
  let prj := environ st !! "QUICKSTART_PROJECT_NAME" in
  let project_name := match p with Some v => Some v | None => prj end in
  exists n tr k rest,
    snd (main w st) = advance (exporting st) n tr
    /\ 1 <= k <= max_attempts
    /\ commands_of tr `prefix_of`
       (["diagrid project create " +:+ py_str prj +:+ " --deploy-managed-kv";
         "diagrid project use " +:+ py_str prj;
         "diagrid appid create -p " +:+ py_str prj +:+ " order-app"]
        ++ replicate k ("diagrid appid get order-app -p " +:+ py_str project_name)
        ++ scaffold_commands w)
    /\ commands_of tr
       = ("diagrid project create " +:+ py_str prj +:+ " --deploy-managed-kv") :: rest
    /\ (forall a, fst (main w st) = Val a ->
          commands_of tr
          = ["diagrid project create " +:+ py_str prj +:+ " --deploy-managed-kv";
             "diagrid project use " +:+ py_str prj;
             "diagrid appid create -p " +:+ py_str prj +:+ " order-app"]
            ++ replicate k ("diagrid appid get order-app -p " +:+ py_str project_name)
            ++ scaffold_commands w).
Proof.
  intros Hparse prj project_name.
  exact (main_commands w st p c (main w st) Hparse eq_refl).
Qed.

(** With [QUICKSTART_PROJECT_NAME=demo] and [--project-name other], the
    project created is [demo] and the project polled is [other]. *)
Lemma creation_steps_use_environment_name_witness :
  (exists n tr k rest,
     snd (main world_renamed demo_state) = advance (exporting demo_state) n tr
     /\ 1 <= k <= max_attempts
     /\ commands_of tr `prefix_of`
        (["diagrid project create demo --deploy-managed-kv";
          "diagrid project use demo";
          "diagrid appid create -p demo order-app"]
         ++ replicate k "diagrid appid get order-app -p other"
         ++ scaffold_commands world_renamed)
     /\ commands_of tr = "diagrid project create demo --deploy-managed-kv" :: rest
     /\ (forall a, fst (main world_renamed demo_state) = Val a ->
           commands_of tr
           = ["diagrid project create demo --deploy-managed-kv";
              "diagrid project use demo";
              "diagrid appid create -p demo order-app"]
             ++ replicate k "diagrid appid get order-app -p other"
             ++ scaffold_commands world_renamed))
  /\ commands_of (trace (snd (main world_renamed demo_state)))
     = ["diagrid project create demo --deploy-managed-kv";
        "diagrid project use demo";
        "diagrid appid create -p demo order-app";
        "diagrid appid get order-app -p other";
        "diagrid dev scaffold";
        "python3 -m venv diagrid-venv";
        "./diagrid-venv/bin/pip install pyyaml";
        "./diagrid-venv/bin/python scaffold.py"].
Proof.
  split.
  - exact (creation_steps_use_environment_name world_renamed demo_state
             (Some "other") (Some "custom.yaml") eq_refl).
  - vm_compute. reflexivity.
Defined.

(** The config file exists: it is removed, then the scaffolding runs. *)
Lemma config_file_removed_iff_present_witness :
  exists sd,
    main world_renamed demo_state
    = scaffold_and_update_config world_renamed "custom.yaml"
        (advance sd 0
           [EvPrint "Existing dev config file found: custom.yaml";
            EvRemove "custom.yaml";
            EvPrint "Deleted existing config file: custom.yaml"])
    /\ removals_of (trace sd) = [].
Proof.
  set (prj := Some "demo").
  set (sa := snd (create_project world_renamed prj (exporting demo_state))).
  set (sb := snd (set_default_project world_renamed prj sa)).
  set (sc := snd (create_appid world_renamed prj "order-app" sb)).
  set (sd := snd (check_appid_status world_renamed (Some "other") "order-app" sc)).
  exists sd. split; [|vm_compute; reflexivity].
  refine (proj1 (config_file_removed_iff_present world_renamed demo_state
                   (Some "other") (Some "custom.yaml") sa sb sc sd eq_refl _ _ _ _));
    vm_compute; reflexivity.
Defined.

(** [check_js_installed], when it is called, ends the process with
    status 1 as soon as "node -v" or "npm -v" fails. *)
Lemma check_js_installed_exits_1 w st :
  (returncode (subprocess_run w (calls st) (environ st) "node -v") =? 0)%Z
  && (returncode (subprocess_run w (S (calls st)) (environ st) "npm -v") =? 0)%Z
  = false ->
  fst (check_js_installed w st) = Exc (SystemExit 1).
Proof.
  intros H. unfold check_js_installed. rewrite bind_emit.
  unfold bind at 1, run_command at 1. cbn [advance environ calls Nat.add].
  destruct (returncode (subprocess_run w (calls st) (environ st) "node -v") =? 0)%Z;
    cbn [negb andb] in *.
  - unfold bind at 1, run_command at 1. cbn [environ calls]. rewrite H.
    cbn [negb]. by rewrite error_result.
  - unfold bind at 1, run_command at 1. cbn [environ calls].
    destruct (negb _); by rewrite error_result.
Qed.

(** C9, on the code as it is: [main] never calls [check_js_installed].
    No run of [main] executes "node -v" or "npm -v", whatever the world,
    so that the absence of Node.js or npm is not a failure path of the
    program. *)
Theorem main_never_checks_node w st p c :
  parse_args w = Parsed p c ->
  exists n tr,
    snd (main w st) = advance (exporting st) n tr
    /\ forall command, In command (commands_of tr) ->
         command <> "node -v" /\ command <> "npm -v".
Proof.
  intros Hparse.
  destruct (main_commands w st p c _ Hparse eq_refl)
    as (n & tr & k & rest & Hst & _ & [tail Hpre] & _).
  exists n, tr. split; [done|]. intros command Hin.
  assert (Hall : In command (commands_of tr ++ tail)) by (apply in_or_app; by left).
  rewrite <- Hpre in Hall. clear Hpre Hin.
  apply in_app_or in Hall as [Hin|Hin].
  { cbn [creation_commands In] in Hin.
    destruct Hin as [<-|[<-|[<-|[]]]]; split; intros H; vm_compute in H;
      discriminate H. }
  apply in_app_or in Hin as [Hin|Hin].
  { apply list_elem_of_In, elem_of_replicate in Hin as [-> _].
    split; intros H; vm_compute in H; discriminate H. }
  unfold scaffold_commands in Hin.
  destruct (os_path_exists w env_name); cbn [app In] in Hin;
    repeat (destruct Hin as [<-|Hin]; [by split|]); destruct Hin.
Qed.

(** Node.js and npm are missing and everything else succeeds: the
    check would exit with status 1, [main] ends with status 0. *)
Lemma main_never_checks_node_witness :
  exit_status (fst (check_js_installed world_without_node demo_state)) = Some 1%Z
  /\ exit_status (fst (main world_without_node demo_state)) = Some 0%Z
  /\ forall command,
       In command (commands_of (trace (snd (main world_without_node demo_state)))) ->
       command <> "node -v" /\ command <> "npm -v".
Proof.
  split; [vm_compute; reflexivity|]. split; [vm_compute; reflexivity|].
  destruct (main_never_checks_node world_without_node demo_state None None eq_refl)
    as (n & tr & Hst & Hno).
  rewrite Hst. exact Hno.
Defined.

(** * Further properties of the script *)

(** ** [run_command] *)

Lemma lstrip_head s c t : lstrip s = String c t -> isspace c = false.
Proof.
  induction s as [|d s IH]; [done|]. cbn [lstrip].
  destruct (isspace d) eqn:Hd; [exact IH|]. by intros [= <- _].
Qed.

Lemma rstrip_head c s :
  isspace c = false -> exists t, rstrip (String c s) = String c t.
Proof.
  intros Hc. cbn [rstrip]. destruct (rstrip s); [rewrite Hc|]; by eexists.
Qed.

Lemma rstrip_rstrip s : rstrip (rstrip s) = rstrip s.
Proof.
  induction s as [|c s IH]; [done|]. cbn [rstrip].
  destruct (rstrip s) as [|d r] eqn:Hr.
  - destruct (isspace c) eqn:Hc; [done|]. cbn [rstrip]. by rewrite Hc.
  - cbn [rstrip]. cbn [rstrip] in IH. by rewrite IH.
Qed.

(** Stripping twice is stripping once. *)
Lemma strip_strip s : strip (strip s) = strip s.
Proof.
  unfold strip. destruct (lstrip s) as [|c t] eqn:Hl; [done|].
  apply lstrip_head in Hl.
  destruct (rstrip_head c t Hl) as [x Hx]. rewrite Hx.
  cbn [lstrip]. rewrite Hl, <- Hx. apply rstrip_rstrip.
Qed.

(** X1: [run_command] runs its one command in the current environment;
    the text it returns comes from a command that exited with 0 and is
    already stripped; it returns [None] exactly when [check] is off and
    the command exited with another status. *)
Theorem run_command_returns_stripped_output w command check st :
  snd (run_command w command check st) = advance st 1 [EvRun command (environ st)]
  /\ (forall out,
        fst (run_command w command check st) = Val (Some out) ->
        returncode (result_at w st 0 command) = 0%Z
        /\ out = strip (stdout (result_at w st 0 command))
        /\ strip out = out)
  /\ (fst (run_command w command check st) = Val None <->
      check = false /\ returncode (result_at w st 0 command) <> 0%Z).
Proof.
  unfold run_command, result_at. cbn [Nat.add fst snd].
  destruct (returncode _ =? 0)%Z eqn:Hz; cbn [negb].
  - apply Z.eqb_eq in Hz. split; [done|]. split.
    + intros out [= <-]. by rewrite strip_strip.
    + split; [done|]. by intros [_ H].
  - apply Z.eqb_neq in Hz. destruct check; cbn [fst snd].
    + split; [done|]. split; [done|]. split; [done|]. by intros [? _].
    + split; [done|]. split; [done|]. done.
Qed.

Lemma run_command_returns_stripped_output_witness :
  fst (run_command world_pending "diagrid appid get order-app -p demo" false demo_state)
  = Val (Some ("Name: order-app" +:+ nl +:+ "  Status: Pending"))
  /\ strip ("Name: order-app" +:+ nl +:+ "  Status: Pending")
     = "Name: order-app" +:+ nl +:+ "  Status: Pending".
Proof.
  assert (H : fst (run_command world_pending "diagrid appid get order-app -p demo"
                     false demo_state)
              = Val (Some ("Name: order-app" +:+ nl +:+ "  Status: Pending")))
    by (vm_compute; reflexivity).
  split; [exact H|].
  destruct (run_command_returns_stripped_output world_pending
              "diagrid appid get order-app -p demo" false demo_state)
    as (_ & Hout & _).
  exact (proj2 (proj2 (Hout _ H))).
Defined.

(** ** [check_js_installed] and the creation steps *)

Lemma bind_run_command {B} w command check (k : option string -> M B) st :
  bind (run_command w command check) k st =
  let cp := result_at w st 0 command in
  let st' := advance st 1 [EvRun command (environ st)] in
  if (returncode cp =? 0)%Z then k (Some (strip (stdout cp))) st'
  else if check
       then (Exc (CalledProcessError (returncode cp) command (stdout cp) (stderr cp)),
             st')
       else k None st'.
Proof.
  unfold bind, run_command, result_at. cbn [Nat.add].
  destruct (returncode _ =? 0)%Z; cbn [negb]; [done|]. by destruct check.
Qed.

(** X2: [check_js_installed] always runs both "node -v" and "npm -v", in
    that order, even when the first fails.  When both exit with 0 it
    prints the two versions and returns; otherwise it marks the failure,
    prints the Node.js instructions on the error stream and exits with
    status 1. *)
Theorem check_js_installed_outcome w st :
  let node := result_at w st 0 "node -v" in
  let npm := result_at w st 1 "npm -v" in
  let ran := [EvSpinner "Checking Javascript dependencies...";
              EvRun "node -v" (environ st); EvRun "npm -v" (environ st)] in
  commands_of (drop (length (trace st)) (trace (snd (check_js_installed w st))))
  = ["node -v"; "npm -v"]
  /\ check_js_installed w st =
     if (returncode node =? 0)%Z && (returncode npm =? 0)%Z
     then (Val tt,
           advance st 2
             (ran ++ [EvPrint ("Node.js version: " +:+ strip (stdout node));
                      EvPrint ("npm version: " +:+ strip (stdout npm));
                      EvSpinnerOk check_mark]))
     else (Exc (SystemExit 1),
           advance st 2
             (ran ++ [EvSpinnerFail cross_mark;
                      EvPrintErr ("Error: " +:+ NODEJS_INSTRUCTIONS)])).
Proof.
  intros node npm ran.
  assert (Hrun : check_js_installed w st =
     if (returncode node =? 0)%Z && (returncode npm =? 0)%Z
     then (Val tt,
           advance st 2
             (ran ++ [EvPrint ("Node.js version: " +:+ strip (stdout node));
                      EvPrint ("npm version: " +:+ strip (stdout npm));
                      EvSpinnerOk check_mark]))
     else (Exc (SystemExit 1),
           advance st 2
             (ran ++ [EvSpinnerFail cross_mark;
                      EvPrintErr ("Error: " +:+ NODEJS_INSTRUCTIONS)]))).
  { unfold check_js_installed, ran, node, npm, result_at.
    rewrite bind_emit, bind_run_command. cbv beta zeta. unfold result_at.
    cbn [advance environ calls Nat.add].
    destruct (returncode (subprocess_run w (calls st) (environ st) "node -v") =? 0)%Z;
      rewrite bind_run_command; cbv beta zeta; unfold result_at;
      cbn [advance environ calls trace Nat.add];
      destruct (returncode (subprocess_run w (S (calls st)) (environ st) "npm -v") =? 0)%Z;
      cbn [andb];
      rewrite ?bind_emit, ?error_result, ?strip_strip;
      unfold emit, advance; cbn [environ calls trace Nat.add];
      rewrite <- ?app_assoc; reflexivity. }
  split; [|exact Hrun]. rewrite Hrun.
  destruct (_ && _); cbn [snd advance trace]; by rewrite drop_app_length.
Qed.

(** The [try] and [except] shared by the three creation steps. *)
Lemma guarded_result w spinner_text command fail_text st :
  (emit (EvSpinner spinner_text) ;;;
   try_except (run_command w command true ;;; emit (EvSpinnerOk check_mark))
     (except_CalledProcessError fail_text)) st =
  let cp := result_at w st 0 command in
  if (returncode cp =? 0)%Z
  then (Val tt,
        advance st 1
          [EvSpinner spinner_text; EvRun command (environ st); EvSpinnerOk check_mark])
  else (Exc (SystemExit 1),
        advance st 1
          ([EvSpinner spinner_text; EvRun command (environ st)]
           ++ failure_report fail_text (returncode cp) command (stdout cp) (stderr cp))).
Proof.
  rewrite bind_emit. unfold try_except. rewrite bind_run_command.
  cbv zeta. unfold result_at. cbn [advance environ calls Nat.add].
  destruct (returncode _ =? 0)%Z.
  - unfold emit, advance. cbn [environ calls trace Nat.add].
    by rewrite <- !app_assoc.
  - cbn [except_CalledProcessError]. unfold failure_report.
    rewrite !bind_emit.
    destruct (negb (String.eqb (stdout _) "")), (negb (String.eqb (stderr _) ""));
      repeat (rewrite bind_emit || rewrite bind_ret);
      unfold sys_exit, raise, advance;
      cbn [environ calls trace Nat.add app]; rewrite <- ?app_assoc; reflexivity.
Qed.

(** X3: each of the three creation steps runs exactly one command.  It
    returns when the command exits with 0; otherwise it marks the
    failure, prints the error, then the captured output and the captured
    error text, each only when not empty, and exits with status 1.
    Nothing is retried. *)
Theorem creation_steps_outcome w prj appid_name st :
  create_project w prj st
  = step_outcome w st ("Creating project " +:+ py_str prj +:+ "...")
      ("diagrid project create " +:+ py_str prj +:+ " --deploy-managed-kv")
      (cross_mark +:+ " Failed to create project")
  /\ set_default_project w prj st
     = step_outcome w st ("Setting default project as " +:+ py_str prj +:+ "...")
         ("diagrid project use " +:+ py_str prj)
         (cross_mark +:+ " Failed to set default project")
  /\ create_appid w prj appid_name st
     = step_outcome w st ("Creating App ID " +:+ appid_name +:+ "...")
         ("diagrid appid create -p " +:+ py_str prj +:+ " " +:+ appid_name)
         (cross_mark +:+ " Failed to create App ID " +:+ appid_name).
Proof.
  unfold create_project, set_default_project, create_appid, step_outcome.
  rewrite !guarded_result. unfold result_at. done.
Qed.

Lemma step_outcome_returns w st spinner_text command fail_text :
  returncode (result_at w st 0 command) = 0%Z ->
  step_outcome w st spinner_text command fail_text
  = (Val tt,
     advance st 1
       [EvSpinner spinner_text; EvRun command (environ st); EvSpinnerOk check_mark]).
Proof. unfold step_outcome, result_at. cbn [Nat.add]. by intros ->. Qed.


Lemma create_project_outcome w prj st :
  create_project w prj st
  = step_outcome w st ("Creating project " +:+ py_str prj +:+ "...")
      ("diagrid project create " +:+ py_str prj +:+ " --deploy-managed-kv")
      (cross_mark +:+ " Failed to create project").
Proof. unfold create_project. by rewrite guarded_result. Qed.

Lemma set_default_project_outcome w prj st :
  set_default_project w prj st
  = step_outcome w st ("Setting default project as " +:+ py_str prj +:+ "...")
      ("diagrid project use " +:+ py_str prj)
      (cross_mark +:+ " Failed to set default project").
Proof. unfold set_default_project. by rewrite guarded_result. Qed.

Lemma create_appid_outcome w prj appid_name st :
  create_appid w prj appid_name st
  = step_outcome w st ("Creating App ID " +:+ appid_name +:+ "...")
      ("diagrid appid create -p " +:+ py_str prj +:+ " " +:+ appid_name)
      (cross_mark +:+ " Failed to create App ID " +:+ appid_name).
Proof. unfold create_appid. by rewrite guarded_result. Qed.

(** ** [main]: the first failure ends the run *)



(** ** [scaffold_and_update_config] *)

Lemma bind_run_ok {B} w command (k : option string -> M B) st :
  returncode (result_at w st 0 command) = 0%Z ->
  bind (run_command w command true) k st
  = k (Some (strip (stdout (result_at w st 0 command))))
      (advance st 1 [EvRun command (environ st)]).
Proof. intros Hz. rewrite bind_run_command. cbv zeta. by rewrite Hz. Qed.

Lemma bind_run_fail {B} w command (k : option string -> M B) st :
  returncode (result_at w st 0 command) <> 0%Z ->
  bind (run_command w command true) k st
  = (Exc (CalledProcessError (returncode (result_at w st 0 command)) command
            (stdout (result_at w st 0 command)) (stderr (result_at w st 0 command))),
     advance st 1 [EvRun command (environ st)]).
Proof.
  intros Hz. rewrite bind_run_command. cbv zeta.
  apply Z.eqb_neq in Hz. by rewrite Hz.
Qed.

(** Goes through the next command of the scaffolding step, which is
    command number [j] and exits with 0 by [H]. *)
Ltac scaffold_next H j :=
  rewrite ?bind_assoc;
  rewrite bind_run_ok by exact (H j _ ltac:(lia) eq_refl);
  cbv beta iota; rewrite ?bind_ret.

(** Ends at the next command of the scaffolding step, which does not
    exit with 0 by [H]. *)
Ltac scaffold_last H :=
  rewrite ?bind_assoc; rewrite bind_run_fail by exact H;
  rewrite ?advance_advance; eexists; split; reflexivity.

(** The scaffolding step ends at its first command that does not exit
    with 0, with the error of that command. *)
Lemma scaffold_stops w config_file st i command :
  scaffold_commands w !! i = Some command ->
  (forall j cmd, j < i -> scaffold_commands w !! j = Some cmd ->
     returncode (result_at w st j cmd) = 0%Z) ->
  returncode (result_at w st i command) <> 0%Z ->
  exists tr,
    scaffold_and_update_config w config_file st
    = (Exc (CalledProcessError (returncode (result_at w st i command)) command
              (stdout (result_at w st i command))
              (stderr (result_at w st i command))),
       advance st (S i) tr)
    /\ commands_of tr = take (S i) (scaffold_commands w).
Proof.
  unfold scaffold_and_update_config, scaffold_commands.
  destruct (os_path_exists w env_name); cbn [app]; intros Hi Hbefore Hfail;
    rewrite bind_emit.
  - destruct i as [|[|[|[|[|i]]]]]; [..|discriminate Hi]; injection Hi as <-.
    + scaffold_last Hfail.
    + scaffold_next Hbefore 0. scaffold_last Hfail.
    + scaffold_next Hbefore 0. scaffold_next Hbefore 1. scaffold_last Hfail.
    + scaffold_next Hbefore 0. scaffold_next Hbefore 1. scaffold_next Hbefore 2.
      scaffold_last Hfail.
    + scaffold_next Hbefore 0. scaffold_next Hbefore 1. scaffold_next Hbefore 2.
      scaffold_next Hbefore 3. scaffold_last Hfail.
  - destruct i as [|[|[|[|i]]]]; [..|discriminate Hi]; injection Hi as <-.
    + scaffold_last Hfail.
    + scaffold_next Hbefore 0. scaffold_last Hfail.
    + scaffold_next Hbefore 0. scaffold_next Hbefore 1. scaffold_last Hfail.
    + scaffold_next Hbefore 0. scaffold_next Hbefore 1. scaffold_next Hbefore 2.
      scaffold_last Hfail.
Qed.

(** The scaffolding step returns when all its commands exit with 0. *)
Lemma scaffold_returns w config_file st :
  (forall j cmd, scaffold_commands w !! j = Some cmd ->
     returncode (result_at w st j cmd) = 0%Z) ->
  fst (scaffold_and_update_config w config_file st) = Val tt.
Proof.
  unfold scaffold_and_update_config, scaffold_commands.
  destruct (os_path_exists w env_name); cbn [app]; intros Hall;
    assert (Hbefore : forall j cmd, j < 5 -> _ !! j = Some cmd -> _)
      by (intros j cmd _; apply (Hall j cmd));
    rewrite bind_emit.
  - scaffold_next Hbefore 0. scaffold_next Hbefore 1. scaffold_next Hbefore 2.
    scaffold_next Hbefore 3. scaffold_next Hbefore 4. reflexivity.
  - scaffold_next Hbefore 0. scaffold_next Hbefore 1. scaffold_next Hbefore 2.
    scaffold_next Hbefore 3. reflexivity.
Qed.

(** X4: the scaffolding step runs, in order, "diagrid dev scaffold", the
    removal of the virtual environment if and only if its directory
    exists, the creation of the virtual environment, the installation of
    pyyaml and the companion script.  It stops at the first of them that
    does not exit with 0: that command is the last one run and the step
    ends with its [CalledProcessError].  It returns when they all exit
    with 0, and when it returns it has run them all. *)
Theorem scaffold_runs_its_commands_in_order w config_file st :
  let all :=
    "diagrid dev scaffold"
    :: (if os_path_exists w "diagrid-venv" then ["rm -rf diagrid-venv"] else [])
    ++ ["python3 -m venv diagrid-venv";
        "./diagrid-venv/bin/pip install pyyaml";
        "./diagrid-venv/bin/python scaffold.py"] in
  exists n tr,
    snd (scaffold_and_update_config w config_file st) = advance st n tr
    /\ commands_of tr `prefix_of` all
    /\ (fst (scaffold_and_update_config w config_file st) = Val tt ->
        commands_of tr = all)
    /\ (forall i command,
          all !! i = Some command ->
          (forall j cmd, j < i -> all !! j = Some cmd ->
             returncode (result_at w st j cmd) = 0%Z) ->
          returncode (result_at w st i command) <> 0%Z ->
          n = S i
          /\ commands_of tr = take (S i) all
          /\ fst (scaffold_and_update_config w config_file st)
             = Exc (CalledProcessError (returncode (result_at w st i command))
                      command (stdout (result_at w st i command))
                      (stderr (result_at w st i command))))
    /\ ((forall j cmd, all !! j = Some cmd ->
           returncode (result_at w st j cmd) = 0%Z) ->
        fst (scaffold_and_update_config w config_file st) = Val tt).
Proof.
  intros all.
  destruct (issues_scaffold_and_update_config w config_file st)
    as (n & tr & Hst & (L & <- & Hpre) & Hval).
  exists n, tr. split; [done|]. split; [exact Hpre|]. split.
  { intros Hret. symmetry. exact (Hval tt Hret). }
  split; [|apply scaffold_returns].
  intros i command Hi Hbefore Hfail.
  destruct (scaffold_stops w config_file st i command Hi Hbefore Hfail)
    as (tr' & Hrun & Hcmds).
  rewrite Hrun in Hst. cbn [snd] in Hst. rewrite Hrun. cbn [fst].
  assert (Hn : n = S i).
  { apply (f_equal calls) in Hst. cbn [advance calls] in Hst. lia. }
  assert (Htr : tr = tr').
  { apply (f_equal trace) in Hst. cbn [advance trace] in Hst.
    symmetry. by apply app_inv_head in Hst. }
  subst tr. done.
Qed.

Lemma scaffold_runs_its_commands_in_order_witness :
  commands_of (trace (snd (scaffold_and_update_config world_second_fails
                             "dev-demo.yaml" demo_state)))
  = ["diagrid dev scaffold"; "python3 -m venv diagrid-venv"]
  /\ exit_status (fst (scaffold_and_update_config world_second_fails
                         "dev-demo.yaml" demo_state)) = Some 1%Z.
Proof.
  destruct (scaffold_runs_its_commands_in_order world_second_fails "dev-demo.yaml"
              demo_state)
    as (n & tr & Hst & _ & _ & Hstop & _).
  destruct (Hstop 1 "python3 -m venv diagrid-venv" eq_refl) as (_ & Hcmds & Hres).
  - intros j cmd Hj Hcmd. destruct j as [|j]; [|lia]. reflexivity.
  - vm_compute. discriminate.
  - rewrite Hst, Hres. split; [exact Hcmds|reflexivity].
Defined.

Section Checked.

Lemma checked_ret {A} (Q : A -> Prop) a : Q a -> checked Q (ret a).
Proof.
  intros Ha st. exists 0, []. rewrite advance_none. by repeat split.
Qed.

Lemma checked_emit e : ~ is_failure_mark e -> checked (fun _ => True) (emit e).
Proof.
  intros He st. exists 0, [e]. split; [done|]. split; [by constructor|done].
Qed.

Lemma checked_run_command w command :
  checked (fun a => a <> None) (run_command w command true).
Proof.
  intros st. exists 1, [EvRun command (environ st)]. unfold run_command.
  destruct (returncode _ =? 0)%Z eqn:Hz; cbn [negb fst snd].
  - split; [done|]. split; [|done]. constructor; [by intros []|constructor].
  - apply Z.eqb_neq in Hz. split; [done|]. split; [|done].
    constructor; [by intros []|constructor].
Qed.

Lemma checked_bind {A B} (Q : A -> Prop) (R : B -> Prop) (m : M A) (k : A -> M B) :
  checked Q m -> (forall a, Q a -> checked R (k a)) -> checked R (bind m k).
Proof.
  intros Hm Hk st. destruct (Hm st) as (n & tr & Hst & Htr & Hres).
  unfold bind. destruct (m st) as [[a|e|] st1]; cbn [fst snd] in *; subst st1.
  - destruct (Hk a Hres (advance st n tr)) as (n' & tr' & Hst' & Htr' & Hres').
    exists (n + n'), (tr ++ tr'). rewrite Hst', advance_advance.
    split; [done|]. split; [by apply Forall_app|].
    destruct (fst (k a (advance st n tr))) as [b|[]|]; try done.
    destruct Hres' as [Hcode Hlast]. split; [done|].
    by rewrite commands_of_app, last_app, Hlast.
  - by exists n, tr.
  - done.
Qed.

(** The scaffolding step lets the failure of a command through as it
    is. *)
Lemma checked_scaffold_and_update_config w config_file :
  checked (fun _ => True) (scaffold_and_update_config w config_file).
Proof.
  unfold scaffold_and_update_config.
  eapply checked_bind; [apply checked_emit; by intros []|]. intros _ _.
  eapply checked_bind; [apply checked_run_command|]. intros scaffold_output Hsome.
  eapply (checked_bind (fun _ => True)).
  { destruct scaffold_output; [by apply checked_ret|done]. }
  intros _ _. eapply (checked_bind (fun _ => True)).
  { destruct (os_path_exists w env_name); [|by apply checked_ret].
    eapply checked_bind; [apply checked_run_command|].
    intros. by apply checked_ret. }
  intros _ _.
  repeat (eapply checked_bind; [apply checked_run_command|]; intros _ _).
  apply checked_emit. by intros [].
Qed.

End Checked.

(** X5: the scaffolding step never exits by itself and never announces a
    failure: its test of the scaffold output against [None] cannot hold,
    since it runs its commands with [check=True].  It either returns or
    raises the [CalledProcessError] of the last command it ran, whose
    exit status is not 0; the process then ends with status 1. *)
Theorem scaffold_failure_is_an_uncaught_error w config_file st :
  exists n tr,
    snd (scaffold_and_update_config w config_file st) = advance st n tr
    /\ Forall (fun e => ~ is_failure_mark e) tr
    /\ (fst (scaffold_and_update_config w config_file st) = Val tt
        \/ exists code cmd out err,
             fst (scaffold_and_update_config w config_file st)
             = Exc (CalledProcessError code cmd out err)
             /\ code <> 0%Z
             /\ last (commands_of tr) = Some cmd
             /\ exit_status (fst (scaffold_and_update_config w config_file st))
                = Some 1%Z).
Proof.
  destruct (checked_scaffold_and_update_config w config_file st)
    as (n & tr & Hst & Htr & Hres).
  exists n, tr. split; [done|]. split; [done|].
  destruct (fst (scaffold_and_update_config w config_file st)) as [[]|[]|];
    try done; [by left|].
  destruct Hres as [Hcode Hlast]. right. by eexists _, _, _, _.
Qed.

(** ** [check_appid_status]: bounds *)

Lemma seconds_slept_app tr tr' :
  seconds_slept (tr ++ tr') = seconds_slept tr + seconds_slept tr'.
Proof.
  unfold seconds_slept. induction tr as [|e tr IH]; [done|].
  cbn [app foldr]. rewrite IH. destruct e; lia.
Qed.

Lemma seconds_slept_rounds env project_name appid_name k :
  seconds_slept (poll_rounds env project_name appid_name k) = 10 * k.
Proof.
  induction k as [|k IH]; [done|].
  rewrite poll_rounds_S, seconds_slept_app, IH.
  change (seconds_slept (poll_rounds env project_name appid_name 1)) with 10. lia.
Qed.

Lemma commands_of_polling env project_name appid_name k tail :
  commands_of tail = [status_query project_name appid_name] ->
  commands_of (EvSpinner (waiting_text appid_name)
               :: poll_rounds env project_name appid_name k ++ tail)
  = replicate (S k) (status_query project_name appid_name).
Proof.
  intros Htail. change (EvSpinner ?t :: ?l) with ([EvSpinner t] ++ l).
  by rewrite !commands_of_app, commands_of_rounds, Htail, replicate_S_end.
Qed.

(** X6: every run of [check_appid_status] makes between 1 and 8 status
    queries and nothing else, and ends in one of three ways: it returns,
    having slept 10 seconds after each query but the last; it raises
    [AttributeError] on a failed query, likewise; or it exits with
    status 1 after exactly 8 queries and 80 seconds of sleep, a delay
    following the last query too.  It never raises [IndexError] and
    never needs more than its 8 attempts. *)
Theorem polling_is_bounded w project_name appid_name st :
  exists n tr,
    snd (check_appid_status w project_name appid_name st) = advance st n tr
    /\ 1 <= n <= max_attempts
    /\ commands_of tr = replicate n (status_query project_name appid_name)
    /\ ((fst (check_appid_status w project_name appid_name st) = Val tt
         /\ seconds_slept tr = 10 * (n - 1))
        \/ (fst (check_appid_status w project_name appid_name st) = Exc no_split
            /\ seconds_slept tr = 10 * (n - 1))
        \/ (fst (check_appid_status w project_name appid_name st) = Exc (SystemExit 1)
            /\ n = max_attempts
            /\ seconds_slept tr = 10 * max_attempts)).
Proof.
  destruct (check_appid_status_cases w project_name appid_name st)
    as (k & Hp & [[Hk Hf]|[[Hk Hr]| ->]]).
  - rewrite (check_appid_status_failed _ _ _ k) by done.
    eexists (S k), _. split; [reflexivity|]. split; [lia|].
    split; [by apply commands_of_polling|]. right; left. split; [done|].
    change (EvSpinner ?t :: ?l) with ([EvSpinner t] ++ l).
    rewrite !seconds_slept_app, seconds_slept_rounds. cbn [seconds_slept foldr]. lia.
  - rewrite (check_appid_status_ready _ _ _ k) by done.
    eexists (S k), _. split; [reflexivity|]. split; [lia|].
    split; [by apply commands_of_polling|]. left. split; [done|].
    change (EvSpinner ?t :: ?l) with ([EvSpinner t] ++ l).
    rewrite !seconds_slept_app, seconds_slept_rounds. cbn [seconds_slept foldr]. lia.
  - rewrite check_appid_status_timeout by done.
    eexists max_attempts, _. split; [reflexivity|].
    split; [unfold max_attempts; lia|].
    change (EvSpinner ?t :: ?l) with ([EvSpinner t] ++ l).
    rewrite !commands_of_app, !seconds_slept_app, commands_of_rounds,
      seconds_slept_rounds.
    split; [cbn [commands_of omap app]; by rewrite app_nil_r|].
    right; right. split; [done|]. split; [done|]. cbn [seconds_slept foldr]. lia.
Qed.

(** X10: a status query that fails on any attempt, after [k] attempts
    that saw no ready status, ends [check_appid_status] on that attempt
    with [AttributeError]: [k + 1] queries, no report of the status
    parsed so far, and exit status 1 by the traceback. *)
Theorem failed_query_aborts_at_any_attempt w project_name appid_name st k :
  k < max_attempts ->
  (forall n, calls st <= n < calls st + k ->
     query_pending w (environ st) project_name appid_name n = true) ->
  query_failed w (environ st) project_name appid_name (calls st + k) = true ->
  check_appid_status w project_name appid_name st
  = (Exc no_split,
     advance st (S k)
       (EvSpinner (waiting_text appid_name)
        :: poll_rounds (environ st) project_name appid_name k
        ++ [EvRun (status_query project_name appid_name) (environ st)]))
  /\ exit_status (fst (check_appid_status w project_name appid_name st)) = Some 1%Z.
Proof.
  intros Hk Hp Hf.
  rewrite (check_appid_status_failed w project_name appid_name k) by done. done.
Qed.

Lemma failed_query_aborts_at_any_attempt_witness :
  fst (check_appid_status world_third_query_fails (Some "demo") "order-app" demo_state)
  = Exc no_split
  /\ calls (snd (check_appid_status world_third_query_fails (Some "demo") "order-app"
                   demo_state)) = 3.
Proof.
  destruct (failed_query_aborts_at_any_attempt world_third_query_fails
              (Some "demo") "order-app" demo_state 2) as [-> _].
  - unfold max_attempts. lia.
  - intros n Hn. cbn in Hn. destruct n as [|[|n]]; [reflexivity|reflexivity|lia].
  - reflexivity.
  - split; reflexivity.
Defined.

(** ** [main]: the exit status *)

(** X7: when argparse ends the process itself, [main] has run no
    command and printed nothing, and the exit status is argparse's;
    otherwise the exit status is 0 or 1, and it is 0 only after the
    three creation commands, the status queries and all the commands of
    the scaffolding step have run. *)
Theorem main_exit_codes w st :
  match parse_args w with
  | ParserExit code =>
      main w st = (Exc (SystemExit code), exporting st)
      /\ exit_status (fst (main w st)) = Some code
  | Parsed p c =>
      let prj := environ st !! "QUICKSTART_PROJECT_NAME" in
      let project_name := match p with Some v => Some v | None => prj end in
      (exit_status (fst (main w st)) = Some 0%Z
       /\ exists k tr,
            1 <= k <= max_attempts
            /\ trace (snd (main w st)) = trace st ++ tr
            /\ commands_of tr
               = creation_commands prj "order-app"
                 ++ replicate k (status_query project_name "order-app")
                 ++ scaffold_commands w)
      \/ exit_status (fst (main w st)) = Some 1%Z
  end.
Proof.
  destruct (parse_args w) as [p c|code] eqn:Hparse.
  - exact (main_exit_status w st p c Hparse).
  - by rewrite (main_parser_exit w st code Hparse).
Qed.

(** ** The status an attempt parses *)

Lemma starts_with_app_l x y m :
  starts_with x m = true -> starts_with (x +:+ y) m = true.
Proof.
  revert x. induction m as [|a m IH]; intros x H; [done|].
  destruct x as [|b x]; [done|]. rewrite app_String. cbn [starts_with] in *.
  apply andb_true_iff in H as [-> H]. by rewrite (IH _ H).
Qed.

Lemma contains_app_l x y :
  contains x "Status:" = true -> contains (x +:+ y) "Status:" = true.
Proof.
  induction x as [|c x IH]; intros H; [done|].
  rewrite app_String. cbn [contains] in *.
  apply orb_true_iff in H as [H|H].
  - rewrite <- app_String, (starts_with_app_l _ y _ H). done.
  - rewrite (IH H). apply orb_true_r.
Qed.

(** The first occurrence of the marker in a text that has it. *)
Lemma first_marker s :
  contains s "Status:" = true ->
  exists a b, s = a +:+ "Status:" +:+ b /\ contains a "Status:" = false.
Proof.
  induction s as [|c s IH]; intros H; [done|].
  destruct (starts_with (String c s) "Status:") eqn:Hs.
  - apply starts_with_inv in Hs as [b ->]. by exists "", b.
  - cbn [contains] in H. rewrite Hs in H. cbn [orb] in H.
    destruct (IH H) as (a & b & -> & Ha). exists (String c a), b.
    split; [done|]. cbn [contains]. rewrite Ha, orb_false_r.
    destruct (starts_with (String c a) "Status:") eqn:Hca; [|done].
    apply (starts_with_app_l _ ("Status:" +:+ b)) in Hca.
    rewrite app_String in Hca. congruence.
Qed.

(** The field line 85 reads has no marker in it. *)
Lemma status_field_source line :
  contains line "Status:" = true ->
  exists field, split line "Status:" !! 1 = Some field
                /\ contains field "Status:" = false.
Proof.
  intros H. destruct (first_marker line H) as (a & b & -> & Ha).
  rewrite (split_marker_first a b Ha).
  destruct (contains b "Status:") eqn:Hb.
  - destruct (first_marker b Hb) as (a2 & b2 & -> & Ha2).
    rewrite (split_marker_first a2 b2 Ha2). by exists a2.
  - rewrite (split_without _ b Hb). by exists b.
Qed.

Lemma contains_lstrip s : contains s "Status:" = false -> contains (lstrip s) "Status:" = false.
Proof.
  induction s as [|c s IH]; intros H; [done|]. cbn [lstrip].
  destruct (isspace c); [|done]. apply IH. by apply contains_cons in H as [_ H].
Qed.

Lemma rstrip_prefix s : exists t, s = rstrip s +:+ t.
Proof.
  induction s as [|c s [t IH]]; [by exists ""|]. cbn [rstrip].
  destruct (rstrip s) as [|d r] eqn:Hr.
  - destruct (isspace c); [by exists (String c s)|by exists s].
  - exists t. rewrite app_String. by rewrite <- IH.
Qed.

Lemma contains_rstrip s : contains s "Status:" = false -> contains (rstrip s) "Status:" = false.
Proof.
  intros H. destruct (contains (rstrip s) "Status:") eqn:Hr; [|done].
  destruct (rstrip_prefix s) as [t Ht].
  apply (contains_app_l _ t) in Hr. rewrite <- Ht in Hr. congruence.
Qed.

(** X9: the status an attempt parses has no whitespace at either end
    and does not contain the marker "Status:"; the attempt stores that
    same text as [last_status]. *)
Theorem parsed_status_is_trimmed_and_marker_free output last_status s last_status' :
  for_status_lines (split output nl) None last_status = inr (Some s, last_status') ->
  strip s = s
  /\ contains s "Status:" = false
  /\ last_status' = Some s
  /\ exists line, In line (split output nl) /\ contains line "Status:" = true.
Proof.
  rewrite for_status_lines_find.
  destruct (List.find _ _) as [line|] eqn:Hfind; [|done].
  apply find_some in Hfind as [Hin Hline]. intros [= <- <-].
  destruct (status_field_source line Hline) as (field & Hfield & Hfree).
  unfold status_field. rewrite Hfield. cbn [default from_option].
  split; [apply strip_strip|]. split.
  - unfold strip. by apply contains_rstrip, contains_lstrip.
  - split; [done|]. by exists line.
Qed.

Lemma parsed_status_is_trimmed_and_marker_free_witness :
  strip "a" = "a" /\ contains "a" "Status:" = false.
Proof.
  destruct (parsed_status_is_trimmed_and_marker_free "Status: a Status: b" None
              "a" (Some "a")) as (H1 & H2 & _).
  - vm_compute. reflexivity.
  - by split.
Defined.


(** ** [main]: a polling timeout *)

Lemma removals_of_app tr tr' :
  removals_of (tr ++ tr') = removals_of tr ++ removals_of tr'.
Proof. apply omap_app. Qed.

Lemma removals_of_rounds env project_name appid_name k :
  removals_of (poll_rounds env project_name appid_name k) = [].
Proof.
  induction k as [|k IH]; [done|].
  by rewrite poll_rounds_S, removals_of_app, IH.
Qed.

(** X11: when the command line parses, the three creation commands exit
    with 0 and none of the 8 status queries shows a ready status, [main]
    ends with exit status 1 after those 11 commands: the config file is
    neither looked for nor removed and the scaffolding step does not
    run. *)
Theorem polling_timeout_ends_main w st p c :
  let prj := environ st !! "QUICKSTART_PROJECT_NAME" in
  let project_name := match p with Some v => Some v | None => prj end in
  parse_args w = Parsed p c ->
  (forall j cmd, creation_commands prj "order-app" !! j = Some cmd ->
     returncode (result_at w (exporting st) j cmd) = 0%Z) ->
  (forall n, 3 + calls st <= n < 3 + calls st + max_attempts ->
     query_pending w (environ (exporting st)) project_name "order-app" n = true) ->
  exit_status (fst (main w st)) = Some 1%Z
  /\ exists tr,
       snd (main w st) = advance (exporting st) (3 + max_attempts) tr
       /\ commands_of tr
          = creation_commands prj "order-app"
            ++ replicate max_attempts (status_query project_name "order-app")
       /\ removals_of tr = [].
Proof.
  intros prj project_name Hparse Hcreated Hpending.
  assert (Hmain : forall r, main w st = r ->
            exists tr,
              r = (Exc (SystemExit 1), advance (exporting st) (3 + max_attempts) tr)
              /\ commands_of tr
                 = creation_commands prj "order-app"
                   ++ replicate max_attempts (status_query project_name "order-app")
              /\ removals_of tr = []).
  { intros r. main_to_parse Hparse. intros <-. fold prj. fold project_name.
    change {| environ := _; calls := calls st; trace := trace st |}
      with (exporting st).
    pose proof (step_outcome_returns w (exporting st)
                  ("Creating project " +:+ py_str prj +:+ "...") _
                  (cross_mark +:+ " Failed to create project")
                  (Hcreated 0 _ eq_refl)) as H0.
    rewrite <- create_project_outcome in H0. rewrite (bind_val _ _ _ _ _ H0).
    match goal with
    | |- context [bind (set_default_project w prj) _ ?s] =>
        pose proof (step_outcome_returns w s
                      ("Setting default project as " +:+ py_str prj +:+ "...") _
                      (cross_mark +:+ " Failed to set default project")
                      (Hcreated 1 _ eq_refl)) as H1;
        rewrite <- set_default_project_outcome in H1;
        rewrite (bind_val _ _ _ _ _ H1)
    end.
    match goal with
    | |- context [bind (create_appid w prj "order-app") _ ?s] =>
        pose proof (step_outcome_returns w s
                      ("Creating App ID " +:+ "order-app" +:+ "...") _
                      (cross_mark +:+ " Failed to create App ID " +:+ "order-app")
                      (Hcreated 2 _ eq_refl)) as H2;
        rewrite <- create_appid_outcome in H2;
        rewrite (bind_val _ _ _ _ _ H2)
    end.
    rewrite !advance_advance.
    match goal with
    | |- context [bind (check_appid_status w project_name "order-app") _ ?s] =>
        assert (Hout : check_appid_status w project_name "order-app" s
                       = (Exc (SystemExit 1),
                          advance s max_attempts
                            (EvSpinner (waiting_text "order-app")
                             :: poll_rounds (environ s) project_name "order-app"
                                  max_attempts
                             ++ [EvSpinnerFail
                                   (not_ready_text "order-app"
                                      (last_status_after w (environ s) project_name
                                         "order-app" (calls s) max_attempts None))])))
          by (apply check_appid_status_timeout; exact Hpending);
        rewrite (bind_exc _ _ _ _ _ Hout)
    end.
    rewrite advance_advance. eexists. split; [reflexivity|].
    change (EvSpinner (waiting_text "order-app") :: ?l)
      with ([EvSpinner (waiting_text "order-app")] ++ l).
    rewrite !commands_of_app, !removals_of_app, commands_of_rounds,
      removals_of_rounds.
    split; [|done]. cbn [commands_of omap app]. by rewrite app_nil_r. }
  destruct (Hmain _ eq_refl) as (tr & -> & Hcmds & Hrm).
  split; [done|]. by exists tr.
Qed.

Lemma polling_timeout_ends_main_witness :
  exit_status (fst (main world_pending demo_state)) = Some 1%Z
  /\ calls (snd (main world_pending demo_state)) = 11
  /\ removals_of (trace (snd (main world_pending demo_state))) = [].
Proof.
  destruct (polling_timeout_ends_main world_pending demo_state None None eq_refl)
    as (Hexit & tr & Hst & _ & Hrm).
  - intros j cmd _. reflexivity.
  - intros n _. reflexivity.
  - split; [exact Hexit|]. rewrite Hst. split; [reflexivity|exact Hrm].
Defined.
